(** * Ledger reconciliation of the invoice and expense manager

    A shallow embedding of the state-changing code of [src/App.tsx],
    [src/components/InvoiceForm.tsx] and the extraction service
    ([extractInvoiceData]), with the properties of the ledger proved
    about it.

    Modelling conventions.
    - A JavaScript [string] is a [string] of 8-bit characters;
      [toLowerCase] folds the letters A-Z and [trim] strips the ASCII
      white space (tab, line feed, vertical tab, form feed, carriage
      return, space).
    - A JavaScript [number] holding an amount, a quantity or a rate is a
      rational [Q] with exact arithmetic (every finite double is a
      rational; rounding, NaN and the infinities are not modelled).
      [invoiceCount] is an integer [Z].
    - An optional property of an object is an [option]; [x || d] is
      written out with the truthiness of JavaScript (see [orS], [orQ]).
    - [crypto.randomUUID()] and [new Date().toISOString()] are inputs
      of the functions that call them.
    - React state: a handler is a function from the application state
      before the event to the state after it. A handler is a closure
      of one render; [step] takes each event as handled to its end on
      the values that are stored, and [handleSaveInvoiceOn] writes out
      which value of [profiles] a save works on. *)

From Stdlib Require Import ZArith QArith Qminmax Lqa Lia String Ascii.
From stdpp Require Import base option list strings pretty relations.

Local Open Scope string_scope.
Local Open Scope Z_scope.

(** ** Strings *)

Definition lowerChar (c : ascii) : ascii :=
  let n := N_of_ascii c in
  if ((65 <=? n) && (n <=? 90))%N then ascii_of_N (n + 32) else c.

Fixpoint toLowerCase (s : string) : string :=
  match s with
  | EmptyString => EmptyString
  | String c r => String (lowerChar c) (toLowerCase r)
  end.

Definition isSpace (c : ascii) : bool :=
  let n := N_of_ascii c in
  (((9 <=? n) && (n <=? 13)) || (n =? 32))%N.

Fixpoint trimStart (s : string) : string :=
  match s with
  | EmptyString => EmptyString
  | String c r => if isSpace c then trimStart r else s
  end.

Fixpoint trimEnd (s : string) : string :=
  match s with
  | EmptyString => EmptyString
  | String c r =>
      match trimEnd r with
      | EmptyString => if isSpace c then EmptyString else String c EmptyString
      | r' => String c r'
      end
  end.

Definition trim (s : string) : string := trimEnd (trimStart s).

(** [s] is empty or made of white space only. *)
Fixpoint blank (s : string) : bool :=
  match s with
  | EmptyString => true
  | String c r => isSpace c && blank r
  end.

(** ** Truthiness *)

(** [!s] for an optional string: absent or empty. *)
Definition falsyS (o : option string) : bool :=
  match o with
  | None => true
  | Some s => bool_decide (s = "")
  end.

(** [o || d] for an optional string. *)
Definition orS (o : option string) (d : string) : string :=
  match o with
  | Some s => if bool_decide (s = "") then d else s
  | None => d
  end.

(** [o || d] for an optional number: absent and zero are falsy. *)
Definition orQ (o : option Q) (d : Q) : Q :=
  match o with
  | Some q => if Qeq_bool q 0 then d else q
  | None => d
  end.

(** [o || d] for an optional array: every array is truthy. *)
Definition orL {A} (o : option (list A)) (d : list A) : list A :=
  match o with
  | Some l => l
  | None => d
  end.

(** ** Data model ([src/types.ts]) *)

Module InvoiceItem.
Record t := mk {
  id : string;
  description : string;
  quantity : Q;
  rate : Q
}.
End InvoiceItem.

Inductive InvoiceStatus := PAID | UNPAID.

Inductive InvoiceType := expense | income.

Module CustomerProfile.
Record t := mk {
  id : string;
  name : string;
  totalSpent : Q;
  invoiceCount : Z;
  lastInvoiceDate : string
}.
End CustomerProfile.

Module Invoice.
Record t := mk {
  id : string;
  vendorName : string;
  profileId : option string;
  date : string;
  dueDate : string;
  items : list InvoiceItem.t;
  total : Q;
  category : string;
  tags : list string;
  type : InvoiceType;
  currency : string;
  status : InvoiceStatus;
  updatedAt : string
}.
End Invoice.

(** [Partial<Invoice>]: the same properties, each one optional. *)
Module Draft.
Record t := mk {
  id : option string;
  vendorName : option string;
  profileId : option string;
  date : option string;
  dueDate : option string;
  items : option (list InvoiceItem.t);
  total : option Q;
  category : option string;
  tags : option (list string);
  type : option InvoiceType;
  currency : option string;
  status : option InvoiceStatus;
  updatedAt : option string
}.

(** An invoice seen as a [Partial<Invoice>]. *)
Definition ofInvoice (i : Invoice.t) : t :=
  mk (Some (Invoice.id i)) (Some (Invoice.vendorName i)) (Invoice.profileId i)
     (Some (Invoice.date i)) (Some (Invoice.dueDate i)) (Some (Invoice.items i))
     (Some (Invoice.total i)) (Some (Invoice.category i)) (Some (Invoice.tags i))
     (Some (Invoice.type i)) (Some (Invoice.currency i)) (Some (Invoice.status i))
     (Some (Invoice.updatedAt i)).
End Draft.

(** ** Application state ([src/App.tsx]) *)

Inductive ViewState := DASHBOARD | SCANNING | EDITING | MANUAL_ENTRY.

Inductive NoticeKind := success | error.

Record AppState := mkApp {
  view : ViewState;
  invoices : list Invoice.t;
  profiles : list CustomerProfile.t;
  scannedData : option Draft.t;
  notification : option (string * NoticeKind)
}.

Definition initialState : AppState := mkApp DASHBOARD [] [] None None.

(** [items.reduce((sum, it) => sum + it.quantity * it.rate, 0)] *)
Definition sumItems (its : list InvoiceItem.t) : Q :=
  fold_left (fun sum it => (sum + InvoiceItem.quantity it * InvoiceItem.rate it)%Q) its 0%Q.

(** ** Saving an invoice: [handleSaveInvoice] *)

(** [p.name.toLowerCase() === vendor.toLowerCase()] *)
Definition sameVendor (vendor : string) (p : CustomerProfile.t) : Prop :=
  toLowerCase (CustomerProfile.name p) = toLowerCase vendor.

Global Instance sameVendor_dec vendor p : Decision (sameVendor vendor p).
Proof. unfold sameVendor. apply _. Defined.

(** [prevInvoices.find(inv => inv.id === id)] *)
Definition findInvoice (id : string) (l : list Invoice.t) : option Invoice.t :=
  snd <$> list_find (fun inv => Invoice.id inv = id) l.

(** The profile of the previous version gives back its invoice. *)
Definition undone (existing : Invoice.t) (p : CustomerProfile.t) : CustomerProfile.t :=
  CustomerProfile.mk
    (CustomerProfile.id p)
    (CustomerProfile.name p)
    (Qmax 0 (CustomerProfile.totalSpent p - Invoice.total existing))
    (Z.max 0 (CustomerProfile.invoiceCount p - 1))
    (CustomerProfile.lastInvoiceDate p).

Definition undoPrevious (existingInvoice : option Invoice.t)
    (updatedProfiles : list CustomerProfile.t) : list CustomerProfile.t :=
  match existingInvoice with
  | Some existing =>
      match list_find (sameVendor (Invoice.vendorName existing)) updatedProfiles with
      | Some (oldProfileIndex, p) => <[oldProfileIndex := undone existing p]> updatedProfiles
      | None => updatedProfiles
      end
  | None => updatedProfiles
  end.

(** The profile of the saved invoice takes it in. *)
Definition credited (invoice : Invoice.t) (p : CustomerProfile.t) : CustomerProfile.t :=
  CustomerProfile.mk
    (CustomerProfile.id p)
    (CustomerProfile.name p)
    (CustomerProfile.totalSpent p + Invoice.total invoice)
    (CustomerProfile.invoiceCount p + 1)
    (Invoice.date invoice).

Definition created (fresh : string) (invoice : Invoice.t) : CustomerProfile.t :=
  CustomerProfile.mk fresh (Invoice.vendorName invoice) (Invoice.total invoice) 1
    (Invoice.date invoice).

(** Returns the profiles and [finalProfileId]. *)
Definition applyNew (fresh : string) (invoice : Invoice.t)
    (updatedProfiles : list CustomerProfile.t) : list CustomerProfile.t * string :=
  match list_find (sameVendor (Invoice.vendorName invoice)) updatedProfiles with
  | Some (newProfileIndex, p) =>
      (<[newProfileIndex := credited invoice p]> updatedProfiles, CustomerProfile.id p)
  | None => ((updatedProfiles ++ [created fresh invoice])%list, fresh)
  end.

(** [p.invoiceCount > 0 || p.name.toLowerCase() === invoice.vendorName.toLowerCase()] *)
Definition kept (invoice : Invoice.t) (p : CustomerProfile.t) : Prop :=
  0 < CustomerProfile.invoiceCount p \/ sameVendor (Invoice.vendorName invoice) p.

Global Instance kept_dec invoice p : Decision (kept invoice p).
Proof. unfold kept. apply _. Defined.

Definition sweep (invoice : Invoice.t) (l : list CustomerProfile.t) : list CustomerProfile.t :=
  filter (kept invoice) l.

(** [{ ...invoice, profileId: finalProfileId, updatedAt: now }] *)
Definition withProfile (invoice : Invoice.t) (finalProfileId now : string) : Invoice.t :=
  Invoice.mk (Invoice.id invoice) (Invoice.vendorName invoice) (Some finalProfileId)
    (Invoice.date invoice) (Invoice.dueDate invoice) (Invoice.items invoice)
    (Invoice.total invoice) (Invoice.category invoice) (Invoice.tags invoice)
    (Invoice.type invoice) (Invoice.currency invoice) (Invoice.status invoice) now.

(** The profiles after the save, and [finalProfileId]. *)
Definition reconcile (fresh : string) (invoice : Invoice.t) (st : AppState)
    : list CustomerProfile.t * string :=
  let existingInvoice := findInvoice (Invoice.id invoice) (invoices st) in
  let '(updatedProfiles, finalProfileId) :=
    applyNew fresh invoice (undoPrevious existingInvoice (profiles st)) in
  (sweep invoice updatedProfiles, finalProfileId).

Definition handleSaveInvoice (fresh now : string) (invoice : Invoice.t) (st : AppState)
    : AppState :=
  let prevInvoices := invoices st in
  let existingInvoice := findInvoice (Invoice.id invoice) prevInvoices in
  let '(updatedProfiles, finalProfileId) := reconcile fresh invoice st in
  let invoiceWithProfile := withProfile invoice finalProfileId now in
  mkApp DASHBOARD
    (match existingInvoice with
     | Some _ =>
         (fun inv => if bool_decide (Invoice.id inv = Invoice.id invoice)
                     then invoiceWithProfile else inv) <$> prevInvoices
     | None => invoiceWithProfile :: prevInvoices
     end)
    updatedProfiles
    None
    (notification st).

(** ** Bulk operations *)

(** [confirmed] is the answer of the user to [confirm(...)]. *)
Definition handleBulkDelete (confirmed : bool) (ids : list string) (st : AppState)
    : AppState :=
  if confirmed then
    mkApp (view st)
      (filter (fun inv => Invoice.id inv ∉ ids) (invoices st))
      (profiles st)
      (scannedData st)
      (Some ("Deleted " +:+ pretty (length ids) +:+ " invoices", success))
  else st.

Definition markedPaid (now : string) (inv : Invoice.t) : Invoice.t :=
  Invoice.mk (Invoice.id inv) (Invoice.vendorName inv) (Invoice.profileId inv)
    (Invoice.date inv) (Invoice.dueDate inv) (Invoice.items inv)
    (Invoice.total inv) (Invoice.category inv) (Invoice.tags inv)
    (Invoice.type inv) (Invoice.currency inv) PAID now.

Definition handleBulkMarkPaid (now : string) (ids : list string) (st : AppState)
    : AppState :=
  mkApp (view st)
    ((fun inv => if bool_decide (Invoice.id inv ∈ ids) then markedPaid now inv else inv)
       <$> invoices st)
    (profiles st)
    (scannedData st)
    (Some ("Marked " +:+ pretty (length ids) +:+ " invoices as Paid", success)).

Definition handleEditInvoice (invoice : Invoice.t) (st : AppState) : AppState :=
  mkApp EDITING (invoices st) (profiles st) (Some (Draft.ofInvoice invoice)) (notification st).

(** ** The validator of the auto-save: [validateInvoice] *)

Definition Qltb (x y : Q) : bool := negb (Qle_bool y x).

(** [it.description && it.quantity > 0 && it.rate >= 0] *)
Definition itemValid (it : InvoiceItem.t) : bool :=
  negb (bool_decide (InvoiceItem.description it = ""))
  && Qltb 0 (InvoiceItem.quantity it)
  && Qle_bool 0 (InvoiceItem.rate it).

Definition validateInvoice (data : Draft.t) : bool :=
  match Draft.vendorName data with
  | None => false
  | Some vendorName =>
      if bool_decide (vendorName = "") || bool_decide (trim vendorName = "") then false
      else if falsyS (Draft.date data) || falsyS (Draft.dueDate data) then false
      else
        match Draft.items data with
        | None => false
        | Some items =>
            if bool_decide (length items = 0%nat) then false
            else forallb itemValid items
        end
  end.

(** ** The extraction service: [extractInvoiceData] *)

Module PayloadItem.
Record t := mk {
  description : option string;
  quantity : option Q;
  rate : option Q
}.
End PayloadItem.

Module Payload.
Record t := mk {
  vendorName : option string;
  date : option string;
  dueDate : option string;
  currency : option string;
  category : option string;
  tags : option (list string);
  items : option (list PayloadItem.t)
}.
End Payload.

(** What comes back from the model: no text at all (absent, empty or
    blank), a text that [JSON.parse] rejects or that is not an object,
    or a parsed object. *)
Inductive Response :=
  | NoText
  | Unparseable
  | Parsed (parsed : Payload.t).

Definition msgNoText : string :=
  "OCR Failed: No readable content found. Please ensure the invoice is centered and legible.".

Definition msgAnalysis : string :=
  "Analysis failed: The invoice layout was too complex to parse automatically. Manual entry is required.".

(** The error thrown for a missing vendor is raised inside the [try]
    block, so the [catch] replaces it by [msgAnalysis]. *)
Definition extractInvoiceData (r : Response) : string + Payload.t :=
  match r with
  | NoText => inl msgNoText
  | Unparseable => inl msgAnalysis
  | Parsed parsed =>
      if falsyS (Payload.vendorName parsed) then inl msgAnalysis else inr parsed
  end.

(** ** Capture: [handleCapture] *)

(** [uuid k] is the result of the [k]-th call of [crypto.randomUUID()]
    made while the handler runs. *)
Definition formatItems (uuid : nat -> string) (items : list PayloadItem.t)
    : list InvoiceItem.t :=
  imap (fun k it =>
          InvoiceItem.mk (uuid k)
            (orS (PayloadItem.description it) "Item")
            (orQ (PayloadItem.quantity it) 1)
            (orQ (PayloadItem.rate it) 0))
       items.

Definition invoiceTemplate (uuid : nat -> string) (now preferredCurrency : string)
    (data : Payload.t) (items : list PayloadItem.t) : Draft.t :=
  let formattedItems := formatItems uuid items in
  Draft.mk None
    (Payload.vendorName data)
    None
    (Payload.date data)
    (Payload.dueDate data)
    (Some formattedItems)
    (Some (sumItems formattedItems))
    (Some (orS (Payload.category data) "General"))
    (Some (orL (Payload.tags data) []))
    (Some expense)
    (Some (orS (Payload.currency data) preferredCurrency))
    (Some UNPAID)
    (Some now).

(** [{ ...invoiceTemplate, id } as Invoice]: defined when the
    properties that [Invoice] requires are all there. *)
Definition asInvoice (id : string) (d : Draft.t) : option Invoice.t :=
  vendorName ← Draft.vendorName d;
  date ← Draft.date d;
  dueDate ← Draft.dueDate d;
  items ← Draft.items d;
  total ← Draft.total d;
  category ← Draft.category d;
  tags ← Draft.tags d;
  type ← Draft.type d;
  currency ← Draft.currency d;
  status ← Draft.status d;
  updatedAt ← Draft.updatedAt d;
  Some (Invoice.mk id vendorName (Draft.profileId d) date dueDate items total
          category tags type currency status updatedAt).

(** The [catch] branch. *)
Definition captureFailed (message preferredCurrency : string) (st : AppState) : AppState :=
  mkApp EDITING (invoices st) (profiles st)
    (Some (Draft.mk None None None None None None None None None None
             (Some preferredCurrency) (Some UNPAID) None))
    (Some (orS (Some message) "OCR failed. Please enter details manually.", error)).

(** [data.items.map] on an object without [items]. *)
Definition msgNoItems : string :=
  "Cannot read properties of undefined (reading 'map')".

Definition handleCapture (uuid : nat -> string) (now preferredCurrency : string)
    (r : Response) (st : AppState) : AppState :=
  match extractInvoiceData r with
  | inl message => captureFailed message preferredCurrency st
  | inr data =>
      match Payload.items data with
      | None => captureFailed msgNoItems preferredCurrency st
      | Some items =>
          let template := invoiceTemplate uuid now preferredCurrency data items in
          let n := length items in
          if validateInvoice template then
            match asInvoice (uuid n) template with
            | Some invoice =>
                let st' := handleSaveInvoice (uuid (S n)) now invoice st in
                mkApp DASHBOARD (invoices st') (profiles st') (scannedData st')
                  (Some ("Invoice auto-extracted and saved!", success))
            | None => st
            end
          else
            mkApp EDITING (invoices st) (profiles st) (Some template) (notification st)
      end
  end.

(** ** The manual form ([src/components/InvoiceForm.tsx]) *)

Module Form.
(** The state of the component that [handleSave] reads. The form has
    no control for [currency], [status] and [category]: they keep
    their first value. *)
Record t := mk {
  initialData : option Draft.t;
  vendorName : string;
  date : string;
  dueDate : string;
  currency : string;
  status : InvoiceStatus;
  category : string;
  tags : list string;
  items : list InvoiceItem.t
}.

Definition blankItem (uuid : string) : InvoiceItem.t :=
  InvoiceItem.mk uuid "" 1 0.

(** The [useState] initialisers; [today] and [inThirtyDays] are the
    two dates computed from the clock, [uuid] the id of the first
    empty line. *)
Definition init (today inThirtyDays uuid : string) (initialData : option Draft.t) : t :=
  mk initialData
    (orS (initialData ≫= Draft.vendorName) "")
    (orS (initialData ≫= Draft.date) today)
    (orS (initialData ≫= Draft.dueDate) inThirtyDays)
    (orS (initialData ≫= Draft.currency) "INR")
    (default UNPAID (initialData ≫= Draft.status))
    (orS (initialData ≫= Draft.category) "General")
    (orL (initialData ≫= Draft.tags) [])
    (orL (initialData ≫= Draft.items) [blankItem uuid]).

Inductive ItemEdit :=
  | EditDescription (value : string)
  | EditQuantity (value : Q)
  | EditRate (value : Q).

(** What the user can do to the form before saving. *)
Inductive Event :=
  | SetVendorName (value : string)
  | SetDate (value : string)
  | SetDueDate (value : string)
  | AddTag (newTag : string)
  | RemoveTag (tagToRemove : string)
  | AddItem (uuid : string)
  | UpdateItem (id : string) (edit : ItemEdit)
  | RemoveItem (id : string).

Definition editItem (edit : ItemEdit) (item : InvoiceItem.t) : InvoiceItem.t :=
  match edit with
  | EditDescription v =>
      InvoiceItem.mk (InvoiceItem.id item) v (InvoiceItem.quantity item) (InvoiceItem.rate item)
  | EditQuantity v =>
      InvoiceItem.mk (InvoiceItem.id item) (InvoiceItem.description item) v (InvoiceItem.rate item)
  | EditRate v =>
      InvoiceItem.mk (InvoiceItem.id item) (InvoiceItem.description item) (InvoiceItem.quantity item) v
  end.

Definition setTags (f : t) (tags' : list string) : t :=
  mk (initialData f) (vendorName f) (date f) (dueDate f) (currency f) (status f)
     (category f) tags' (items f).

Definition setItems (f : t) (items' : list InvoiceItem.t) : t :=
  mk (initialData f) (vendorName f) (date f) (dueDate f) (currency f) (status f)
     (category f) (tags f) items'.

Definition handle (f : t) (e : Event) : t :=
  match e with
  | SetVendorName v =>
      mk (initialData f) v (date f) (dueDate f) (currency f) (status f)
         (category f) (tags f) (items f)
  | SetDate v =>
      mk (initialData f) (vendorName f) v (dueDate f) (currency f) (status f)
         (category f) (tags f) (items f)
  | SetDueDate v =>
      mk (initialData f) (vendorName f) (date f) v (currency f) (status f)
         (category f) (tags f) (items f)
  | AddTag newTag =>
      if bool_decide (trim newTag = "") then f
      else if bool_decide (trim newTag ∈ tags f) then f
      else setTags f (tags f ++ [trim newTag])%list
  | RemoveTag tagToRemove =>
      setTags f (filter (fun t => t <> tagToRemove) (tags f))
  | AddItem uuid =>
      setItems f (items f ++ [blankItem uuid])%list
  | UpdateItem id edit =>
      setItems f ((fun item => if bool_decide (InvoiceItem.id item = id)
                               then editItem edit item else item) <$> items f)
  | RemoveItem id =>
      if bool_decide (1 < length (items f))%nat
      then setItems f (filter (fun item => InvoiceItem.id item <> id) (items f))
      else f
  end.

Definition calculateTotal (f : t) : Q := sumItems (items f).

(** [!item.description.trim() || item.quantity <= 0 || item.rate < 0] *)
Definition itemInvalid (item : InvoiceItem.t) : bool :=
  bool_decide (trim (InvoiceItem.description item) = "")
  || Qle_bool (InvoiceItem.quantity item) 0
  || Qltb (InvoiceItem.rate item) 0.

(** The keys of [newErrors] with their messages. *)
Definition errors (f : t) : list (string * string) :=
  ((if bool_decide (trim (vendorName f) = "")
    then [("vendorName", "Vendor name is required.")] else [])
   ++ (if bool_decide (date f = "")
       then [("date", "Invoice date is required.")] else [])
   ++ (if bool_decide (dueDate f = "")
       then [("dueDate", "Due date is required.")] else [])
   ++ (if existsb itemInvalid (items f)
       then [("items", "Validate item details (description, qty > 0, rate >= 0).")] else []))%list.

Definition validate (f : t) : bool := bool_decide (errors f = []).

(** [None] when [validate] fails and nothing is saved. *)
Definition handleSave (uuid now : string) (f : t) : option Invoice.t :=
  if validate f then
    Some (Invoice.mk
            (orS (initialData f ≫= Draft.id) uuid)
            (trim (vendorName f))
            None
            (date f)
            (dueDate f)
            (items f)
            (calculateTotal f)
            (category f)
            (tags f)
            expense
            (currency f)
            (status f)
            now)
  else None.
End Form.

(** ** The transitions of the application

    One step is one event handled to its end: the call of the model in
    [handleCapture] is taken as atomic, and the form is mounted with
    [scannedData] when the view becomes [EDITING]. The dashboard is on
    screen only in the view [DASHBOARD], the scanner in [SCANNING] and
    the form in [EDITING]. A UUID drawn for a new invoice is not the id
    of a stored invoice. *)

Definition setView (v : ViewState) (st : AppState) : AppState :=
  mkApp v (invoices st) (profiles st) (scannedData st) (notification st).

Definition openManual (preferredCurrency : string) (st : AppState) : AppState :=
  mkApp EDITING (invoices st) (profiles st)
    (Some (Draft.mk None None None None None None None None None None
             (Some preferredCurrency) None None))
    (notification st).

Definition cancelForm (st : AppState) : AppState :=
  mkApp DASHBOARD (invoices st) (profiles st) None (notification st).

Definition storedIds (st : AppState) : list string := Invoice.id <$> invoices st.

Inductive step : AppState -> AppState -> Prop :=
  | step_openScanner st :
      view st = DASHBOARD ->
      step st (setView SCANNING st)
  | step_cancelScanner st :
      view st = SCANNING ->
      step st (setView DASHBOARD st)
  | step_capture uuid now preferredCurrency r st :
      view st = SCANNING ->
      (forall k, uuid k ∉ storedIds st) ->
      step st (handleCapture uuid now preferredCurrency r st)
  | step_openManual preferredCurrency st :
      view st = DASHBOARD ->
      step st (openManual preferredCurrency st)
  | step_edit invoice st :
      view st = DASHBOARD ->
      invoice ∈ invoices st ->
      step st (handleEditInvoice invoice st)
  | step_formSave today inThirtyDays uuid0 events uuid uuid' now invoice st :
      view st = EDITING ->
      Form.handleSave uuid now
        (foldl Form.handle (Form.init today inThirtyDays uuid0 (scannedData st)) events)
        = Some invoice ->
      uuid ∉ storedIds st ->
      step st (handleSaveInvoice uuid' now invoice st)
  | step_formCancel st :
      view st = EDITING ->
      step st (cancelForm st)
  | step_bulkDelete confirmed ids st :
      view st = DASHBOARD ->
      step st (handleBulkDelete confirmed ids st)
  | step_bulkMarkPaid now ids st :
      view st = DASHBOARD ->
      step st (handleBulkMarkPaid now ids st)
  | step_notificationExpired st :
      step st (mkApp (view st) (invoices st) (profiles st) (scannedData st) None).

Definition reachable (st : AppState) : Prop := rtc step initialState st.

(** ** Vocabulary of the statements *)

(** [p], at index [i], is the first profile of [l] whose name is
    [vendor] up to the case of the letters. *)
Definition firstMatch (vendor : string) (l : list CustomerProfile.t)
    (i : nat) (p : CustomerProfile.t) : Prop :=
  l !! i = Some p /\
  toLowerCase (CustomerProfile.name p) = toLowerCase vendor /\
  forall j q, l !! j = Some q -> (j < i)%nat ->
    toLowerCase (CustomerProfile.name q) <> toLowerCase vendor.

Definition noMatch (vendor : string) (l : list CustomerProfile.t) : Prop :=
  Forall (fun q => toLowerCase (CustomerProfile.name q) <> toLowerCase vendor) l.

(** [l'] is [l] with [y] in place of the element of index [i]. *)
Definition replacedAt {A} (i : nat) (y : A) (l l' : list A) : Prop :=
  length l' = length l /\ l' !! i = Some y /\ forall j, j <> i -> l' !! j = l !! j.

(** The comparison that trims both names before folding the case. *)
Definition sameVendorTrimmed (vendor : string) (p : CustomerProfile.t) : Prop :=
  toLowerCase (trim (CustomerProfile.name p)) = toLowerCase (trim vendor).

(** [b] has the fields of [a], [profileId] and [updatedAt] apart. *)
Definition sameButProfileAndTime (a b : Invoice.t) : Prop :=
  Invoice.id b = Invoice.id a /\
  Invoice.vendorName b = Invoice.vendorName a /\
  Invoice.date b = Invoice.date a /\
  Invoice.dueDate b = Invoice.dueDate a /\
  Invoice.items b = Invoice.items a /\
  Invoice.total b = Invoice.total a /\
  Invoice.category b = Invoice.category a /\
  Invoice.tags b = Invoice.tags a /\
  Invoice.type b = Invoice.type a /\
  Invoice.currency b = Invoice.currency a /\
  Invoice.status b = Invoice.status a.

(** Two profiles that differ at most in how [totalSpent] is written as
    a fraction. *)
Definition sameProfile (p q : CustomerProfile.t) : Prop :=
  CustomerProfile.id q = CustomerProfile.id p /\
  CustomerProfile.name q = CustomerProfile.name p /\
  (CustomerProfile.totalSpent q == CustomerProfile.totalSpent p)%Q /\
  CustomerProfile.invoiceCount q = CustomerProfile.invoiceCount p /\
  CustomerProfile.lastInvoiceDate q = CustomerProfile.lastInvoiceDate p.

(** An optional vendor name that names no vendor: absent, empty or
    made of white space only. *)
Definition noUsableVendor (o : option string) : Prop :=
  match o with
  | None => True
  | Some s => blank s = true
  end.

(** An optional string that is there and is not the empty string. *)
Definition presentS (o : option string) (s : string) : Prop :=
  o = Some s /\ s <> "".

Definition nonNegative (p : CustomerProfile.t) : Prop :=
  0 <= CustomerProfile.invoiceCount p /\ (0 <= CustomerProfile.totalSpent p)%Q.

(** How one item of the payload and the item made from it compare. *)
Definition formatted (it : PayloadItem.t) (it' : InvoiceItem.t) : Prop :=
  (forall s, presentS (PayloadItem.description it) s -> InvoiceItem.description it' = s) /\
  (falsyS (PayloadItem.description it) = true -> InvoiceItem.description it' = "Item") /\
  (forall q, PayloadItem.quantity it = Some q -> ~ (q == 0)%Q -> InvoiceItem.quantity it' = q) /\
  (PayloadItem.quantity it = None \/
   (exists q, PayloadItem.quantity it = Some q /\ (q == 0)%Q) ->
   InvoiceItem.quantity it' = 1%Q) /\
  (forall r, PayloadItem.rate it = Some r -> (InvoiceItem.rate it' == r)%Q) /\
  (PayloadItem.rate it = None -> InvoiceItem.rate it' = 0%Q).

(** What holds of every state the application can reach: stored ids
    are pairwise different, a draft is pending only while the form is
    open, and a pending draft that has an id is a stored invoice. *)
Definition consistent (st : AppState) : Prop :=
  NoDup (storedIds st) /\
  (view st <> EDITING -> scannedData st = None) /\
  (forall d i, scannedData st = Some d -> Draft.id d = Some i ->
     exists inv, inv ∈ invoices st /\ d = Draft.ofInvoice inv).

(** ** Inputs of the worked examples *)

Module Examples.
Definition paper (id : string) (rate : Q) : InvoiceItem.t :=
  InvoiceItem.mk id "Paper" 1 rate.

Definition invoiceOf (id vendor date : string) (rate : Q) : Invoice.t :=
  Invoice.mk id vendor None date "2024-03-01" [paper "i1" rate] rate
    "General" [] expense "USD" UNPAID "2024-01-01T00:00:00.000Z".

(** Invoice A of vendor Acme, total 100, and a second Acme invoice. *)
Definition invoiceA : Invoice.t := invoiceOf "a" "Acme" "2024-01-05" 100.
Definition invoiceC : Invoice.t := invoiceOf "c" "Acme" "2024-01-03" 200.

(** A edited: vendor Beta, total 150. *)
Definition invoiceA' : Invoice.t := invoiceOf "a" "Beta" "2024-01-09" 150.

(** An invoice of the vendor written with a space at the end. *)
Definition invoiceB : Invoice.t := invoiceOf "b" "Acme " "2024-02-01" 50.

Definition afterC : AppState := handleSaveInvoice "p1" "t1" invoiceC initialState.
Definition afterA : AppState := handleSaveInvoice "p2" "t2" invoiceA afterC.

(** The same invoice as the extraction returns it. *)
Definition scannedB : Payload.t :=
  Payload.mk (Some "Acme ") (Some "2024-02-01") (Some "2024-03-01") (Some "USD")
    (Some "General") (Some []) (Some [PayloadItem.mk (Some "Paper") (Some 1%Q) (Some 50%Q)]).

(** The form opened on it. *)
Definition formB : Form.t :=
  Form.init "2024-02-01" "2024-03-02" "u0" (Some (Draft.ofInvoice invoiceB)).
End Examples.

Module Coffee.
Definition items : list PayloadItem.t :=
  [PayloadItem.mk (Some "Coffee") (Some 2%Q) (Some 3%Q)].

(** A payload whose vendor name is two spaces. *)
Definition blankVendor : Payload.t :=
  Payload.mk (Some "  ") (Some "2024-01-05") (Some "2024-02-04") (Some "USD")
    (Some "Meals") (Some ["coffee"]) (Some items).

(** A payload whose vendor name is the empty string. *)
Definition emptyVendor : Payload.t :=
  Payload.mk (Some "") (Some "2024-01-05") (Some "2024-02-04") (Some "USD")
    (Some "Meals") (Some ["coffee"]) (Some items).

(** A payload with every property, one description being empty. *)
Definition emptyDescription : Payload.t :=
  Payload.mk (Some "Cafe") (Some "2024-01-05") (Some "2024-02-04") (Some "USD")
    (Some "Meals") (Some ["coffee"])
    (Some [PayloadItem.mk (Some "") (Some 2%Q) (Some 3%Q)]).

(** A payload with every property. *)
Definition complete : Payload.t :=
  Payload.mk (Some "Cafe") (Some "2024-01-05") (Some "2024-02-04") (Some "USD")
    (Some "Meals") (Some ["coffee"]) (Some items).
End Coffee.

(** A session: a receipt is scanned and saved at once, marked as paid,
    then opened in the form and saved again under another vendor name. *)
Module Session.
Definition scanning : AppState := setView SCANNING initialState.

Definition captured : AppState :=
  handleCapture pretty "t1" "INR" (Parsed Coffee.complete) scanning.

Definition paid : AppState := handleBulkMarkPaid "t2" ["1"] captured.

Definition paidInvoice : Invoice.t :=
  Invoice.mk "1" "Cafe" (Some "2") "2024-01-05" "2024-02-04"
    [InvoiceItem.mk "0" "Coffee" 2 3] 6 "Meals" ["coffee"] expense "USD" PAID "t2".

Definition editing : AppState := handleEditInvoice paidInvoice paid.

Definition events : list Form.Event := [Form.SetVendorName " Cafe Roma "].

Definition edited : Invoice.t :=
  Invoice.mk "1" "Cafe Roma" None "2024-01-05" "2024-02-04"
    [InvoiceItem.mk "0" "Coffee" 2 3] 6 "Meals" ["coffee"] expense "USD" PAID "t4".

Definition saved : AppState := handleSaveInvoice "u8" "t4" edited editing.
End Session.

(** ** Derived status ([src/utils/formatters.ts])

    Times are the millisecond values of the [Date] objects: [today] is
    the local midnight that the function computes from the clock,
    [threeDaysFromNow] the end of the third day after it, and [due] the
    value of [new Date(dueDate)], [None] when the date is invalid (its
    value is NaN, for which every comparison is false). *)

Module Derived.
Inductive t := PAID | UNPAID | OVERDUE.
End Derived.

Global Instance Derived_eq_dec : EqDecision Derived.t.
Proof. solve_decision. Defined.

Definition getDerivedStatus (today : Z) (due : option Z) (currentStatus : InvoiceStatus)
    : Derived.t :=
  match currentStatus with
  | PAID => Derived.PAID
  | UNPAID =>
      match due with
      | Some d => if d <? today then Derived.OVERDUE else Derived.UNPAID
      | None => Derived.UNPAID
      end
  end.

Definition isDueSoon (today threeDaysFromNow : Z) (due : option Z) : bool :=
  match due with
  | Some d => (today <=? d) && (d <=? threeDaysFromNow)
  | None => false
  end.

(** The number shown under "Overdue" on the dashboard; [parse] gives
    the time value of a date string. *)
Definition overdueCount (parse : string -> option Z) (today : Z) (l : list Invoice.t) : nat :=
  length (filter (fun i => getDerivedStatus today (parse (Invoice.dueDate i))
                             (Invoice.status i) = Derived.OVERDUE) l).

(** ** The balance sheet ([balanceSheet] in [src/App.tsx]) *)

Global Instance InvoiceType_eq_dec : EqDecision InvoiceType.
Proof. solve_decision. Defined.

Record BalanceSheet := mkBalance {
  totalRevenue : Q;
  totalExpenses : Q;
  netBalance : Q
}.

Definition balanceSheet (st : AppState) : BalanceSheet :=
  let totalExpenses :=
    fold_left (fun sum inv => (sum + Invoice.total inv)%Q)
      (filter (fun inv => Invoice.type inv = expense) (invoices st)) 0%Q in
  mkBalance 0 totalExpenses (- totalExpenses).

(** ** Pages of the table ([src/components/BillTable.tsx]) *)

Definition itemsPerPage : nat := 5.

(** [Math.ceil(n / itemsPerPage)] *)
Definition totalPages (n : nat) : nat := ((n + (itemsPerPage - 1)) / itemsPerPage)%nat.

(** [l.slice(startIndex, startIndex + itemsPerPage)] for a page counted
    from 1. *)
Definition paginated {A} (currentPage : nat) (l : list A) : list A :=
  let startIndex := ((currentPage - 1) * itemsPerPage)%nat in
  take itemsPerPage (drop startIndex l).

(** ** Measures of a ledger *)

(** The key under which vendor names are compared. *)
Definition vendorKey (inv : Invoice.t) : string := toLowerCase (Invoice.vendorName inv).

Definition profileKey (p : CustomerProfile.t) : string :=
  toLowerCase (CustomerProfile.name p).

(** The sum of [w] over a list. *)
Definition sumOf {A} (w : A -> Z) (l : list A) : Z := foldr (fun x acc => w x + acc) 0 l.

(** The number of invoices of the vendor [k]. *)
Definition invoicesOf (k : string) (l : list Invoice.t) : Z :=
  sumOf (fun inv => if decide (vendorKey inv = k) then 1 else 0) l.

(** The sum of [invoiceCount] over the profiles of the vendor [k]. *)
Definition countedFor (k : string) (l : list CustomerProfile.t) : Z :=
  sumOf (fun p => if decide (profileKey p = k) then CustomerProfile.invoiceCount p else 0) l.

(** ** Well-formed ledgers *)

Definition itemOk (it : InvoiceItem.t) : Prop :=
  InvoiceItem.description it <> "" /\
  (0 < InvoiceItem.quantity it)%Q /\
  (0 <= InvoiceItem.rate it)%Q.

Definition wellFormed (inv : Invoice.t) : Prop :=
  Invoice.type inv = expense /\
  blank (Invoice.vendorName inv) = false /\
  Invoice.date inv <> "" /\
  Invoice.dueDate inv <> "" /\
  Forall itemOk (Invoice.items inv) /\
  Invoice.total inv = sumItems (Invoice.items inv).

(** A profile that counts at least one invoice and no negative spend. *)
Definition inUse (p : CustomerProfile.t) : Prop :=
  1 <= CustomerProfile.invoiceCount p /\ (0 <= CustomerProfile.totalSpent p)%Q.

(** The invoice points to a stored profile that bears its vendor name. *)
Definition linked (profiles : list CustomerProfile.t) (inv : Invoice.t) : Prop :=
  exists p, p ∈ profiles /\ profileKey p = vendorKey inv /\
            Invoice.profileId inv = Some (CustomerProfile.id p).

Definition sound (st : AppState) : Prop :=
  NoDup (storedIds st) /\
  NoDup (profileKey <$> profiles st) /\
  Forall inUse (profiles st) /\
  Forall wellFormed (invoices st) /\
  (forall k, invoicesOf k (invoices st) <= countedFor k (profiles st)) /\
  Forall (linked (profiles st)) (invoices st).

(** The profiles count exactly the stored invoices of each vendor. *)
Definition exactCounts (st : AppState) : Prop :=
  forall k, countedFor k (profiles st) = invoicesOf k (invoices st).

(** 1 when the previous version belongs to the vendor [k]. *)
Definition leaving (k : string) (previous : option Invoice.t) : Z :=
  match previous with
  | Some x => if decide (vendorKey x = k) then 1 else 0
  | None => 0
  end.

Definition joining (k : string) (invoice : Invoice.t) : Z :=
  if decide (vendorKey invoice = k) then 1 else 0.

(** No profile counts fewer invoices than are stored under its name. *)
Definition covered (st : AppState) : Prop :=
  Forall (fun p => invoicesOf (profileKey p) (invoices st) <= CustomerProfile.invoiceCount p)
         (profiles st).

(** ** A save and the render it belongs to

    [handleSaveInvoice] is a closure of one render of [App]. The
    updater that it hands to [setInvoices] receives the invoices stored
    at the moment it runs, but [profiles] in [[...profiles]] is the
    value of the render that made the closure, and [setProfiles]
    replaces the stored profiles by what was computed from that value.
    [rendered] is that value. It is [profiles st] when nothing was
    stored between the render and the call; it is older when the save
    is the auto-save of a capture that was started before another save
    and resolves after it. *)
Definition withProfiles (rendered : list CustomerProfile.t) (st : AppState) : AppState :=
  mkApp (view st) (invoices st) rendered (scannedData st) (notification st).

Definition handleSaveInvoiceOn (rendered : list CustomerProfile.t) (fresh now : string)
    (invoice : Invoice.t) (st : AppState) : AppState :=
  handleSaveInvoice fresh now invoice (withProfiles rendered st).

(** Two captures of the same vendor, the second started before the
    first one resolves: its save runs on the invoices left by the first
    and on the profiles of the empty ledger. *)
Module Overlap.
Definition first : AppState :=
  handleCapture pretty "t1" "INR" (Parsed Coffee.complete) initialState.

Definition second : Invoice.t :=
  Invoice.mk "7" "Cafe" None "2024-01-06" "2024-02-05"
    [InvoiceItem.mk "6" "Tea" 1 4] 4 "Meals" [] expense "USD" UNPAID "t2".

Definition both : AppState :=
  handleSaveInvoiceOn (profiles initialState) "8" "t2" second first.
End Overlap.

(** The form of the session after the edit of the vendor name, and the
    invoice that saving the opened invoice untouched gives. *)
Module Desk.
Definition form : Form.t :=
  foldl Form.handle
    (Form.init "2024-01-10" "2024-02-09" "u0" (scannedData Session.editing))
    Session.events.

Definition untouched : Form.t :=
  Form.init "2024-01-10" "2024-02-09" "u0" (Some (Draft.ofInvoice Session.paidInvoice)).

Definition resaved : Invoice.t :=
  Invoice.mk "1" "Cafe" None "2024-01-05" "2024-02-04"
    [InvoiceItem.mk "0" "Coffee" 2 3] 6 "Meals" ["coffee"] expense "USD" PAID "t4".

Definition rows : list nat := [1; 2; 3; 4; 5; 6]%nat.
End Desk.

(** * Properties *)

(** ** Lists *)

Section ListFacts.
Context {A : Type} (P : A -> Prop) `{!forall x, Decision (P x)}.

Lemma replacedAt_insert (l : list A) i x y :
  l !! i = Some x -> replacedAt i y l (<[i := y]> l).
Proof.
  intros Hi. repeat split.
  - apply length_insert.
  - apply list_lookup_insert_eq. by eapply lookup_lt_Some.
  - intros j Hj. by apply list_lookup_insert_ne.
Qed.

(** Replacing the first match by an element that matches too leaves
    it the first match. *)
Lemma list_find_insert_same (l : list A) i x y :
  list_find P l = Some (i, x) -> P y -> list_find P (<[i := y]> l) = Some (i, y).
Proof.
  intros (Hi & Hx & Hlt)%list_find_Some Hy. apply list_find_Some.
  split_and!; [|done|].
  - apply list_lookup_insert_eq. by eapply lookup_lt_Some.
  - intros j z Hj Hji. rewrite list_lookup_insert_ne in Hj by lia. eauto.
Qed.

(** A filter that keeps every match keeps the first match first. *)
Lemma list_find_filter (Q : A -> Prop) `{!forall x, Decision (Q x)} (l : list A) i x :
  (forall y, P y -> Q y) ->
  list_find P l = Some (i, x) ->
  exists j, list_find P (filter Q l) = Some (j, x).
Proof.
  intros HPQ. revert i. induction l as [|a l IH]; intros i; [done|].
  cbn [list_find]. destruct (decide (P a)) as [Ha|Ha].
  - intros [= <- <-]. exists 0%nat. rewrite (filter_cons_True Q a l) by auto.
    cbn [list_find]. by rewrite decide_True.
  - destruct (list_find P l) as [[k z]|] eqn:E; [|done].
    intros Heq. cbn in Heq. injection Heq as <- <-.
    destruct (IH k eq_refl) as [j Hj].
    destruct (decide (Q a)).
    + rewrite (filter_cons_True Q a l) by done. exists (S j).
      cbn [list_find]. rewrite decide_False by done. by rewrite Hj.
    + rewrite (filter_cons_False Q a l) by done. eauto.
Qed.

Lemma filter_all (l : list A) : Forall P l -> filter P l = l.
Proof.
  induction 1 as [|a l Ha _ IH]; [done|]. by rewrite (filter_cons_True P a l), IH.
Qed.
End ListFacts.

Lemma forallb_false {A} (f : A -> bool) (l : list A) :
  forallb f l = false <-> exists x, x ∈ l /\ f x = false.
Proof.
  induction l as [|a l IH]; cbn.
  - split; [done|]. by intros (x & ?%not_elem_of_nil & _).
  - rewrite andb_false_iff, IH. split.
    + intros [Ha|(x & Hx & Hfx)]; [exists a|exists x]; split; try done.
      * apply list_elem_of_here.
      * by apply list_elem_of_further.
    + intros (x & [->|Hx]%elem_of_cons & Hfx); [by left|right; eauto].
Qed.

(** ** Strings *)

Lemma trimEnd_empty s : trimEnd s = "" <-> blank s = true.
Proof.
  induction s as [|c r IH]; cbn; [done|].
  destruct (trimEnd r) eqn:E, (isSpace c); cbn; split; try done.
  - intros _. by apply IH.
  - intros H. apply IH in H. done.
Qed.

Lemma blank_trimStart s : blank (trimStart s) = blank s.
Proof.
  induction s as [|c r IH]; cbn; [done|].
  destruct (isSpace c) eqn:E; cbn; [done|]. by rewrite E.
Qed.

Lemma trim_empty s : trim s = "" <-> blank s = true.
Proof. unfold trim. by rewrite trimEnd_empty, blank_trimStart. Qed.

(** ** Saving an invoice *)

Lemma findInvoice_Some id l x :
  findInvoice id l = Some x -> x ∈ l /\ Invoice.id x = id.
Proof.
  unfold findInvoice. destruct (list_find _ l) as [[i y]|] eqn:E; [|done].
  intros [= <-]. apply list_find_Some in E as (Hi & Hid & _).
  split; [|done]. apply list_elem_of_lookup. eauto.
Qed.

Lemma findInvoice_None id l :
  findInvoice id l = None -> id ∉ Invoice.id <$> l.
Proof.
  unfold findInvoice. destruct (list_find _ l) as [[i y]|] eqn:E; [done|].
  intros _. apply list_find_None in E. rewrite Forall_forall in E.
  intros (x & -> & Hx)%list_elem_of_fmap. by apply (E x).
Qed.

Lemma reconcile_eq fresh invoice st :
  reconcile fresh invoice st =
  let r := applyNew fresh invoice
             (undoPrevious (findInvoice (Invoice.id invoice) (invoices st)) (profiles st)) in
  (sweep invoice r.1, r.2).
Proof. unfold reconcile. by destruct (applyNew _ _ _). Qed.

Lemma profiles_handleSaveInvoice fresh now invoice st :
  profiles (handleSaveInvoice fresh now invoice st) = (reconcile fresh invoice st).1.
Proof. unfold handleSaveInvoice. by destruct (reconcile _ _ _). Qed.

Lemma invoices_handleSaveInvoice fresh now invoice st :
  invoices (handleSaveInvoice fresh now invoice st) =
  let stored := withProfile invoice (reconcile fresh invoice st).2 now in
  match findInvoice (Invoice.id invoice) (invoices st) with
  | Some _ =>
      (fun inv => if bool_decide (Invoice.id inv = Invoice.id invoice) then stored else inv)
        <$> invoices st
  | None => stored :: invoices st
  end.
Proof. unfold handleSaveInvoice. by destruct (reconcile _ _ _). Qed.

Lemma view_handleSaveInvoice fresh now invoice st :
  view (handleSaveInvoice fresh now invoice st) = DASHBOARD /\
  scannedData (handleSaveInvoice fresh now invoice st) = None.
Proof. unfold handleSaveInvoice. by destruct (reconcile _ _ _). Qed.

Lemma sameVendor_kept invoice p : sameVendor (Invoice.vendorName invoice) p -> kept invoice p.
Proof. by right. Qed.

Lemma applyNew_first fresh invoice l :
  exists i p,
    list_find (sameVendor (Invoice.vendorName invoice)) (applyNew fresh invoice l).1 = Some (i, p)
    /\ CustomerProfile.id p = (applyNew fresh invoice l).2
    /\ ((exists p0, p0 ∈ l /\ p = credited invoice p0) \/ p = created fresh invoice).
Proof.
  unfold applyNew.
  destruct (list_find _ l) as [[i p]|] eqn:E; cbn [fst snd].
  - exists i, (credited invoice p). apply list_find_Some in E as E'.
    destruct E' as (Hi & Hp & _). split_and!; [|done|].
    + by apply (list_find_insert_same _ l i p).
    + left. exists p. split; [|done]. apply list_elem_of_lookup. eauto.
  - exists (length l), (created fresh invoice). split_and!; [|done|by right].
    rewrite list_find_app_r by done. cbn [list_find].
    by rewrite decide_True.
Qed.

Lemma reconcile_first fresh invoice st :
  exists j p,
    list_find (sameVendor (Invoice.vendorName invoice)) (reconcile fresh invoice st).1 = Some (j, p)
    /\ CustomerProfile.id p = (reconcile fresh invoice st).2
    /\ ((exists p0,
           p0 ∈ undoPrevious (findInvoice (Invoice.id invoice) (invoices st)) (profiles st)
           /\ p = credited invoice p0)
        \/ p = created fresh invoice).
Proof.
  rewrite reconcile_eq. cbn [fst snd].
  destruct (applyNew_first fresh invoice
              (undoPrevious (findInvoice (Invoice.id invoice) (invoices st)) (profiles st)))
    as (i & p & Hfind & Hid & Horigin).
  destruct (list_find_filter _ (kept invoice) _ i p (sameVendor_kept invoice) Hfind) as [j Hj].
  by exists j, p.
Qed.

Lemma handleSaveInvoice_stored fresh now invoice st :
  withProfile invoice (reconcile fresh invoice st).2 now
  ∈ invoices (handleSaveInvoice fresh now invoice st).
Proof.
  rewrite invoices_handleSaveInvoice. cbn zeta.
  destruct (findInvoice _ _) as [previous|] eqn:E.
  - apply findInvoice_Some in E as [Hin Hid].
    apply list_elem_of_fmap. exists previous. split; [|done].
    by rewrite bool_decide_eq_true_2.
  - apply list_elem_of_here.
Qed.

(** C3. After a save, every profile left in the collection has a
    positive [invoiceCount] or bears, up to the case of the letters, the
    vendor name of the invoice just saved; no other profile whose
    [invoiceCount] is 0 survives the sweep. *)
Theorem save_sweeps_empty_profiles fresh now invoice st :
  Forall (fun p => 0 < CustomerProfile.invoiceCount p \/
                   toLowerCase (CustomerProfile.name p)
                   = toLowerCase (Invoice.vendorName invoice))
         (profiles (handleSaveInvoice fresh now invoice st)).
Proof.
  rewrite profiles_handleSaveInvoice, reconcile_eq. cbn [fst].
  apply Forall_forall. intros p [Hp _]%list_elem_of_filter. exact Hp.
Qed.

(** C10. The record that a save stores has every field of the invoice
    it was given, two apart: [profileId] is the id of the profile
    matched or created by the reconciliation (the first profile of the
    new collection that bears the vendor name), and [updatedAt] is the
    time of the save, whatever the caller had put there. The record
    takes the place of the stored invoices of the same id when there is
    one, and is put at the head of the collection otherwise. *)
Theorem save_stores_input fresh now invoice st :
  let st' := handleSaveInvoice fresh now invoice st in
  exists pid stored,
    sameButProfileAndTime invoice stored /\
    Invoice.profileId stored = Some pid /\
    Invoice.updatedAt stored = now /\
    (exists j p, firstMatch (Invoice.vendorName invoice) (profiles st') j p
                 /\ CustomerProfile.id p = pid) /\
    stored ∈ invoices st' /\
    match findInvoice (Invoice.id invoice) (invoices st) with
    | Some _ =>
        invoices st' =
        (fun inv => if bool_decide (Invoice.id inv = Invoice.id invoice) then stored else inv)
          <$> invoices st
    | None => invoices st' = stored :: invoices st
    end.
Proof.
  intros st'. subst st'.
  exists (reconcile fresh invoice st).2,
         (withProfile invoice (reconcile fresh invoice st).2 now).
  split; [by repeat split|]. do 2 (split; [done|]). split.
  { destruct (reconcile_first fresh invoice st) as (j & p & Hfind & Hid & _).
    exists j, p. split; [|done]. rewrite profiles_handleSaveInvoice.
    by apply list_find_Some in Hfind. }
  split; [apply handleSaveInvoice_stored|].
  rewrite invoices_handleSaveInvoice. cbn zeta.
  by destruct (findInvoice _ _).
Qed.

Lemma undoPrevious_spec previous l :
  (noMatch (Invoice.vendorName previous) l /\ undoPrevious (Some previous) l = l) \/
  (exists i p,
     firstMatch (Invoice.vendorName previous) l i p /\
     replacedAt i
       (CustomerProfile.mk (CustomerProfile.id p) (CustomerProfile.name p)
          (Qmax 0 (CustomerProfile.totalSpent p - Invoice.total previous))
          (Z.max 0 (CustomerProfile.invoiceCount p - 1))
          (CustomerProfile.lastInvoiceDate p))
       l (undoPrevious (Some previous) l)).
Proof.
  unfold undoPrevious.
  destruct (list_find _ l) as [[i p]|] eqn:E.
  - right. exists i, p. apply list_find_Some in E as (Hi & Hp & Hlt).
    split; [by repeat split|]. by apply replacedAt_insert with p.
  - left. by apply list_find_None in E.
Qed.

Lemma applyNew_spec fresh invoice l :
  (exists i p,
     firstMatch (Invoice.vendorName invoice) l i p /\
     (applyNew fresh invoice l).2 = CustomerProfile.id p /\
     replacedAt i
       (CustomerProfile.mk (CustomerProfile.id p) (CustomerProfile.name p)
          (CustomerProfile.totalSpent p + Invoice.total invoice)
          (CustomerProfile.invoiceCount p + 1)
          (Invoice.date invoice))
       l (applyNew fresh invoice l).1) \/
  (noMatch (Invoice.vendorName invoice) l /\
   (applyNew fresh invoice l).2 = fresh /\
   (applyNew fresh invoice l).1 =
   (l ++ [CustomerProfile.mk fresh (Invoice.vendorName invoice) (Invoice.total invoice) 1
            (Invoice.date invoice)])%list).
Proof.
  unfold applyNew.
  destruct (list_find _ l) as [[i p]|] eqn:E; cbn [fst snd].
  - left. exists i, p. apply list_find_Some in E as (Hi & Hp & Hlt).
    split; [by repeat split|]. split; [done|]. by apply replacedAt_insert with p.
  - right. by apply list_find_None in E.
Qed.

(** What a save does to the profiles, for every invoice and every
    state. A save first takes the invoice back from
    the profile of the previous version: when an invoice of the same id
    is stored, the first profile whose name is the vendor name of that
    version up to the case of the letters (the names are compared as
    they are stored, nothing is trimmed) has [invoiceCount] lowered by 1
    and [totalSpent] lowered by the total of the previous version, both
    floored at 0. Then the first profile whose name is the new vendor
    name, compared in the same way, has [invoiceCount] raised by 1, the
    total of the invoice added to [totalSpent] and [lastInvoiceDate] set
    to the date of the invoice, and its id is the one given to the
    invoice; when there is none, a profile with [invoiceCount] 1,
    [totalSpent] the total, [lastInvoiceDate] the date and the fresh id
    is added at the end. The collection kept is the sweep of the
    result. *)
Theorem save_reconciles_profiles fresh now invoice st :
  exists P1 P2 pid,
    match findInvoice (Invoice.id invoice) (invoices st) with
    | None => P1 = profiles st
    | Some previous =>
        (noMatch (Invoice.vendorName previous) (profiles st) /\ P1 = profiles st) \/
        (exists i p,
           firstMatch (Invoice.vendorName previous) (profiles st) i p /\
           replacedAt i
             (CustomerProfile.mk (CustomerProfile.id p) (CustomerProfile.name p)
                (Qmax 0 (CustomerProfile.totalSpent p - Invoice.total previous))
                (Z.max 0 (CustomerProfile.invoiceCount p - 1))
                (CustomerProfile.lastInvoiceDate p))
             (profiles st) P1)
    end /\
    ((exists i p,
        firstMatch (Invoice.vendorName invoice) P1 i p /\
        pid = CustomerProfile.id p /\
        replacedAt i
          (CustomerProfile.mk (CustomerProfile.id p) (CustomerProfile.name p)
             (CustomerProfile.totalSpent p + Invoice.total invoice)
             (CustomerProfile.invoiceCount p + 1)
             (Invoice.date invoice))
          P1 P2) \/
     (noMatch (Invoice.vendorName invoice) P1 /\
      pid = fresh /\
      P2 = (P1 ++ [CustomerProfile.mk fresh (Invoice.vendorName invoice)
                     (Invoice.total invoice) 1 (Invoice.date invoice)])%list)) /\
    profiles (handleSaveInvoice fresh now invoice st) = sweep invoice P2 /\
    (exists stored,
       stored ∈ invoices (handleSaveInvoice fresh now invoice st) /\
       Invoice.profileId stored = Some pid).
Proof.
  set (P1 := undoPrevious (findInvoice (Invoice.id invoice) (invoices st)) (profiles st)).
  exists P1, (applyNew fresh invoice P1).1, (applyNew fresh invoice P1).2.
  split_and!.
  - subst P1. destruct (findInvoice _ _) as [previous|]; [|done].
    destruct (undoPrevious_spec previous (profiles st)) as [[? ?]|?]; [left|right]; done.
  - destruct (applyNew_spec fresh invoice P1) as [(i & p & ? & ? & ?)|?]; [left|right]; eauto.
  - by rewrite profiles_handleSaveInvoice, reconcile_eq.
  - exists (withProfile invoice (reconcile fresh invoice st).2 now).
    split; [apply handleSaveInvoice_stored|]. by rewrite reconcile_eq.
Qed.

(** ** Saving the same invoice again *)

Lemma undone_nonNegative previous p : nonNegative (undone previous p).
Proof. split; cbn; [lia|]. apply Q.le_max_l. Qed.

Lemma undoPrevious_nonNegative existing l :
  Forall nonNegative l -> Forall nonNegative (undoPrevious existing l).
Proof.
  intros Hl. unfold undoPrevious. destruct existing as [previous|]; [|done].
  destruct (list_find _ l) as [[i p]|]; [|done].
  apply Forall_insert; [done|apply undone_nonNegative].
Qed.

(** The invoice found under the id just saved is the record of that save. *)
Lemma findInvoice_saved fresh now invoice st :
  findInvoice (Invoice.id invoice) (invoices (handleSaveInvoice fresh now invoice st))
  = Some (withProfile invoice (reconcile fresh invoice st).2 now).
Proof.
  rewrite invoices_handleSaveInvoice. cbn zeta.
  set (stored := withProfile invoice _ now).
  destruct (findInvoice _ (invoices st)) as [previous|] eqn:E.
  - unfold findInvoice in *. rewrite list_find_fmap.
    rewrite (list_find_ext _ (fun inv => Invoice.id inv = Invoice.id invoice)).
    + destruct (list_find _ (invoices st)) as [[i x]|] eqn:E'; [|done].
      apply list_find_Some in E' as (_ & Hx & _). cbn.
      by rewrite bool_decide_eq_true_2.
    + intros x. cbn. case_bool_decide; [|done]. by subst stored.
  - unfold findInvoice. cbn [list_find]. by rewrite decide_True.
Qed.

Lemma sameProfile_refl p : sameProfile p p.
Proof. by repeat split. Qed.

(** The profile of the vendor as a save leaves it, when no aggregate
    was negative before: the invoice can be taken back from it without
    reaching a floor. *)
Lemma reconcile_first_counts fresh invoice st :
  Forall nonNegative (profiles st) ->
  exists j p,
    list_find (sameVendor (Invoice.vendorName invoice)) (reconcile fresh invoice st).1 = Some (j, p)
    /\ 1 <= CustomerProfile.invoiceCount p
    /\ (0 <= CustomerProfile.totalSpent p - Invoice.total invoice)%Q
    /\ CustomerProfile.lastInvoiceDate p = Invoice.date invoice.
Proof.
  intros Hst.
  destruct (reconcile_first fresh invoice st) as (j & p & Hfind & _ & Horigin).
  exists j, p. split; [done|].
  destruct Horigin as [(p0 & Hp0 & ->)| ->]; cbn.
  - pose proof (undoPrevious_nonNegative
                  (findInvoice (Invoice.id invoice) (invoices st)) _ Hst) as Hu.
    rewrite Forall_forall in Hu. destruct (Hu p0 Hp0) as [Hc Hs].
    split_and!; [lia| |done]. lra.
  - split_and!; [lia| |done]. lra.
Qed.

(** C2. Saving the same invoice twice in a row leaves the profiles as
    the first save left them: same profiles in the same order, with the
    same [invoiceCount], the same [totalSpent] (as a number) and the
    same [lastInvoiceDate]. The floors at 0 stay out of play as soon as
    no stored aggregate is negative before the first save, which holds
    for aggregates that agree with a collection of valid invoices. *)
Theorem resave_keeps_profiles fresh1 now1 fresh2 now2 invoice st :
  Forall (fun p => 0 <= CustomerProfile.invoiceCount p /\
                   (0 <= CustomerProfile.totalSpent p)%Q) (profiles st) ->
  let st1 := handleSaveInvoice fresh1 now1 invoice st in
  let st2 := handleSaveInvoice fresh2 now2 invoice st1 in
  Forall2 sameProfile (profiles st1) (profiles st2).
Proof.
  intros Hst st1 st2. subst st1 st2.
  destruct (reconcile_first_counts fresh1 invoice st Hst) as (j & p & Hfind & Hc & Hs & Hd).
  rewrite <- (profiles_handleSaveInvoice fresh1 now1) in Hfind.
  assert (Hkept : Forall (kept invoice) (profiles (handleSaveInvoice fresh1 now1 invoice st))).
  { rewrite profiles_handleSaveInvoice, reconcile_eq. cbn [fst].
    apply Forall_forall. by intros q [Hq _]%list_elem_of_filter. }
  rewrite (profiles_handleSaveInvoice fresh2 now2), reconcile_eq. cbn [fst].
  rewrite findInvoice_saved.
  set (L1 := profiles (handleSaveInvoice fresh1 now1 invoice st)) in *.
  set (stored := withProfile invoice _ now1).
  unfold undoPrevious. change (Invoice.vendorName stored) with (Invoice.vendorName invoice).
  rewrite Hfind. unfold applyNew.
  destruct (proj1 (list_find_Some _ _ _ _) Hfind) as (Hj & Hp & _).
  rewrite (list_find_insert_same _ L1 j p (undone stored p) Hfind Hp). cbn [fst].
  rewrite list_insert_insert_eq. unfold sweep.
  rewrite filter_all by (apply Forall_insert; [done|by right]).
  rewrite <- (list_insert_id L1 j p Hj) at 1.
  apply Forall2_insert.
  - apply Forall_Forall2_diag, Forall_forall. intros ? _. apply sameProfile_refl.
  - repeat split; cbn.
    + rewrite Q.max_r by done. ring.
    + lia.
    + done.
Qed.

(** Saving A (Acme, 100) next to another Acme invoice, then saving A
    again as Beta with total 150: the Acme profile goes from (2, 300) to
    (1, 200) and a Beta profile (1, 150) is created. *)
Example acme_then_beta :
  profiles Examples.afterA
  = [CustomerProfile.mk "p1" "Acme" 300 2 "2024-01-05"] /\
  profiles (handleSaveInvoice "p3" "t3" Examples.invoiceA' Examples.afterA)
  = [CustomerProfile.mk "p1" "Acme" 200 1 "2024-01-05";
     CustomerProfile.mk "p3" "Beta" 150 1 "2024-01-09"].
Proof. split; reflexivity. Qed.

(** With a single Acme invoice the Acme profile drops to 0 and is swept. *)
Example acme_then_beta_swept :
  profiles (handleSaveInvoice "p3" "t3" Examples.invoiceA'
              (handleSaveInvoice "p1" "t1" Examples.invoiceA initialState))
  = [CustomerProfile.mk "p3" "Beta" 150 1 "2024-01-09"].
Proof. reflexivity. Qed.

(** C1, at the input where the code leaves the claim: names are not
    trimmed. The Acme profile matches the vendor name of the saved
    invoice once both are trimmed, yet the save leaves it as it is and
    creates a second profile; the auto-save of a capture brings such a
    name to the save as the extraction returned it. The form, the
    other way to the save, hands over the trimmed name. *)
Theorem save_does_not_trim :
  let acme := CustomerProfile.mk "p1" "Acme" 300 2 "2024-01-05" in
  profiles Examples.afterA = [acme] /\
  sameVendorTrimmed (Invoice.vendorName Examples.invoiceB) acme /\
  findInvoice (Invoice.id Examples.invoiceB) (invoices Examples.afterA) = None /\
  profiles (handleSaveInvoice "p3" "t3" Examples.invoiceB Examples.afterA)
  = [acme; CustomerProfile.mk "p3" "Acme " 50 1 "2024-02-01"] /\
  profiles (handleCapture pretty "t3" "USD" (Parsed Examples.scannedB) Examples.afterA)
  = [acme; CustomerProfile.mk "2" "Acme " 50 1 "2024-02-01"] /\
  Invoice.vendorName <$> Form.handleSave "b" "t3" Examples.formB = Some "Acme".
Proof. cbv zeta. split_and!; reflexivity. Qed.

(** The second save of A after the two Acme invoices, run. *)
Lemma resave_keeps_profiles_witness :
  Forall (fun p => 0 <= CustomerProfile.invoiceCount p /\
                   (0 <= CustomerProfile.totalSpent p)%Q) (profiles Examples.afterC) /\
  Forall2 sameProfile
    (profiles (handleSaveInvoice "p2" "t2" Examples.invoiceA Examples.afterC))
    (profiles (handleSaveInvoice "p3" "t3" Examples.invoiceA
                 (handleSaveInvoice "p2" "t2" Examples.invoiceA Examples.afterC))).
Proof.
  assert (H : Forall (fun p => 0 <= CustomerProfile.invoiceCount p /\
                               (0 <= CustomerProfile.totalSpent p)%Q)
                     (profiles Examples.afterC)).
  { repeat constructor; cbn; [lia|lra]. }
  split; [exact H|].
  exact (resave_keeps_profiles "p2" "t2" "p3" "t3" Examples.invoiceA Examples.afterC H).
Defined.

(** ** Bulk delete *)

(** C4, as the code has it. When the user confirms, the invoices whose
    id is in [ids] are removed and the others stay in their order; when
    the user declines, the invoices stay as they are. The profiles are
    left untouched in both cases: nothing is taken back from
    [invoiceCount] or [totalSpent]. *)
Theorem bulkDelete_effect confirmed ids st :
  profiles (handleBulkDelete confirmed ids st) = profiles st /\
  invoices (handleBulkDelete confirmed ids st)
  = (if confirmed
     then filter (fun inv => Invoice.id inv ∉ ids) (invoices st)
     else invoices st) /\
  invoices (handleBulkDelete confirmed ids st) `sublist_of` invoices st.
Proof.
  destruct confirmed; cbn; split_and!; try done.
  apply sublist_filter.
Qed.

(** C4 does not hold for every call: declined, the call removes nothing. *)
Lemma bulkDelete_declined :
  let stored := withProfile Examples.invoiceA "p1" "t2" in
  Invoice.id stored ∈ ["a"] /\
  stored ∈ invoices Examples.afterA /\
  stored ∈ invoices (handleBulkDelete false ["a"] Examples.afterA) /\
  invoices (handleBulkDelete false ["a"] Examples.afterA)
  <> filter (fun inv => Invoice.id inv ∉ ["a"]) (invoices Examples.afterA).
Proof.
  cbv zeta. split_and!.
  - apply list_elem_of_here.
  - vm_compute. apply list_elem_of_here.
  - vm_compute. apply list_elem_of_here.
  - by vm_compute.
Qed.

(** ** The validator of the auto-save *)

Lemma Qltb_lt x y : Qltb x y = true <-> (x < y)%Q.
Proof.
  unfold Qltb. rewrite negb_true_iff, <- not_true_iff_false, Qle_bool_iff.
  split; [apply Qnot_le_lt|apply Qlt_not_le].
Qed.

Lemma itemValid_false it :
  itemValid it = false <->
  InvoiceItem.description it = "" \/
  (InvoiceItem.quantity it <= 0)%Q \/
  (InvoiceItem.rate it < 0)%Q.
Proof.
  unfold itemValid. rewrite !andb_false_iff, negb_false_iff, bool_decide_eq_true.
  rewrite <- !not_true_iff_false, Qltb_lt, Qle_bool_iff.
  split.
  - intros [[?|H]|H]; [by left| |].
    + right; left. by apply Qnot_lt_le.
    + right; right. by apply Qnot_le_lt.
  - intros [?|[H|H]]; [by left; left| |].
    + left; right. by apply Qle_not_lt.
    + right. by apply Qlt_not_le.
Qed.

(** What the validator of the auto-save rejects: the description of an
    item is only compared with the empty string. *)
Lemma validateInvoice_false data :
  validateInvoice data = false <->
  noUsableVendor (Draft.vendorName data) \/
  falsyS (Draft.date data) = true \/
  falsyS (Draft.dueDate data) = true \/
  Draft.items data = None \/
  Draft.items data = Some [] \/
  exists items it,
    Draft.items data = Some items /\ it ∈ items /\
    (InvoiceItem.description it = "" \/
     (InvoiceItem.quantity it <= 0)%Q \/
     (InvoiceItem.rate it < 0)%Q).
Proof.
  unfold validateInvoice, noUsableVendor.
  destruct (Draft.vendorName data) as [vendorName|]; [|by split; [left|]].
  destruct (decide (blank vendorName = true)) as [Hb|Hb].
  { assert (trim vendorName = "") as -> by by apply trim_empty.
    rewrite (bool_decide_eq_true_2 ("" = "")) by done.
    rewrite orb_true_r. by split; [left|]. }
  assert (vendorName <> "") by (by intros ->).
  assert (trim vendorName <> "") by (by rewrite trim_empty).
  rewrite !bool_decide_eq_false_2 by done. cbn [orb].
  destruct (falsyS (Draft.date data)); cbn [orb]; [by split; [right; left|]|].
  destruct (falsyS (Draft.dueDate data)); cbn [orb]; [by split; [right; right; left|]|].
  destruct (Draft.items data) as [items|]; [|by split; [right; right; right; left|]].
  destruct items as [|it0 items]; [by split; [do 4 right; left|]|].
  rewrite bool_decide_eq_false_2 by done.
  rewrite forallb_false. split.
  - intros (it & Hin & Hit). do 5 right. exists (it0 :: items), it.
    split_and!; [done..|]. by apply itemValid_false.
  - intros [?|[?|[?|[?|[?|(items' & it & [= <-] & Hin & Hit)]]]]]; try done.
    exists it. split; [done|]. by apply itemValid_false.
Qed.

(** C6, at the input where the code leaves the claim: an item whose
    description is a single space passes the validator of the
    auto-save, while the validator of the form rejects the same item. *)
Theorem validateInvoice_accepts_blank_description :
  let item := InvoiceItem.mk "i1" " " 1 5 in
  let data :=
    Draft.mk None (Some "Acme") None (Some "2024-01-05") (Some "2024-02-04")
      (Some [item]) (Some 5%Q) (Some "General") (Some []) (Some expense)
      (Some "USD") (Some UNPAID) (Some "t0") in
  blank (InvoiceItem.description item) = true /\
  validateInvoice data = true /\
  Form.itemInvalid item = true.
Proof. cbv zeta. split_and!; reflexivity. Qed.

(** The same input through [handleCapture]: the invoice is saved at
    once with the blank description. *)
Example capture_saves_blank_description :
  let payload :=
    Payload.mk (Some "Acme") (Some "2024-01-05") (Some "2024-02-04") (Some "USD")
      (Some "General") (Some []) (Some [PayloadItem.mk (Some " ") (Some 1%Q) (Some 5%Q)]) in
  (Invoice.items <$> invoices (handleCapture pretty "t1" "INR" (Parsed payload) initialState))
  = [[InvoiceItem.mk "0" " " 1 5]].
Proof. reflexivity. Qed.

(** ** Capture without a usable vendor name *)

Lemma validateInvoice_blank_vendor data :
  noUsableVendor (Draft.vendorName data) -> validateInvoice data = false.
Proof. intros H. apply validateInvoice_false. by left. Qed.

(** What a capture does with a payload whose vendor name is absent,
    empty or blank, for every such payload: the ledger is left as it
    is and the user is sent to the form. When the name is absent or
    empty the extraction fails, the error is shown and the draft has no
    vendor name. When it is made of white space only the extraction
    succeeds: without items the normalizer fails and its error is shown,
    with items no error is shown, the draft carries the name as it is
    and it is the validator that withholds the save. *)
Lemma capture_without_vendor uuid now preferredCurrency payload st :
  noUsableVendor (Payload.vendorName payload) ->
  let st' := handleCapture uuid now preferredCurrency (Parsed payload) st in
  invoices st' = invoices st /\
  profiles st' = profiles st /\
  view st' = EDITING /\
  (falsyS (Payload.vendorName payload) = true ->
   extractInvoiceData (Parsed payload) = inl msgAnalysis /\
   notification st' = Some (msgAnalysis, error) /\
   exists d, scannedData st' = Some d /\ Draft.vendorName d = None) /\
  (falsyS (Payload.vendorName payload) = false ->
   extractInvoiceData (Parsed payload) = inr payload /\
   match Payload.items payload with
   | None =>
       notification st' = Some (msgNoItems, error) /\
       exists d, scannedData st' = Some d /\ Draft.vendorName d = None
   | Some items =>
       notification st' = notification st /\
       scannedData st' = Some (invoiceTemplate uuid now preferredCurrency payload items)
   end).
Proof.
  intros Hvendor. unfold handleCapture, extractInvoiceData.
  destruct (falsyS (Payload.vendorName payload)) eqn:Hfalsy.
  { cbn. split_and!; try done. intros _. split_and!; try done. by eexists. }
  destruct (Payload.items payload) as [items|].
  2: { cbn. split_and!; try done. intros _. split_and!; try done. by eexists. }
  cbn zeta. rewrite validateInvoice_blank_vendor by done.
  cbn. by split_and!.
Qed.

(** C7, at the input where the code leaves the claim: for a vendor
    name of two spaces the extraction raises no error and returns the
    payload, no error is shown, and the draft handed to the form
    carries the two spaces. The extraction does refuse the empty name,
    and the validator of the auto-save, which trims the name, refuses
    the draft. *)
Theorem blank_vendor_raises_no_error :
  let st' := handleCapture pretty "t1" "INR" (Parsed Coffee.blankVendor) initialState in
  noUsableVendor (Payload.vendorName Coffee.blankVendor) /\
  extractInvoiceData (Parsed Coffee.blankVendor) = inr Coffee.blankVendor /\
  notification st' = None /\
  view st' = EDITING /\
  scannedData st' ≫= Draft.vendorName = Some "  " /\
  extractInvoiceData (Parsed Coffee.emptyVendor) = inl msgAnalysis /\
  validateInvoice (invoiceTemplate pretty "t1" "INR" Coffee.blankVendor Coffee.items) = false.
Proof. cbv zeta. split_and!; reflexivity. Qed.

(** The capture of the payload with a blank vendor, run on a ledger
    that holds invoices. *)
Lemma capture_without_vendor_witness :
  noUsableVendor (Payload.vendorName Coffee.blankVendor) /\
  invoices (handleCapture pretty "t1" "INR" (Parsed Coffee.blankVendor) Examples.afterA)
  = invoices Examples.afterA.
Proof.
  assert (H : noUsableVendor (Payload.vendorName Coffee.blankVendor)) by reflexivity.
  split; [exact H|].
  exact (proj1 (capture_without_vendor pretty "t1" "INR" Coffee.blankVendor
                  Examples.afterA H)).
Defined.

(** ** The normalizer *)

Lemma orS_present o s d : presentS o s -> orS o d = s.
Proof. intros [-> Hs]. cbn. by rewrite bool_decide_eq_false_2. Qed.

Lemma orS_falsy o d : falsyS o = true -> orS o d = d.
Proof. destruct o as [s|]; cbn; [|done]. by intros ->. Qed.

Lemma formatItems_formatted uuid items :
  Forall2 formatted items (formatItems uuid items).
Proof.
  unfold formatItems. revert uuid.
  induction items as [|it items IH]; intros uuid; cbn; constructor.
  - unfold formatted. cbn. split_and!.
    + intros s Hs. by apply orS_present.
    + apply orS_falsy.
    + intros q -> Hq. cbn. destruct (Qeq_bool q 0) eqn:E; [|done].
      by apply Qeq_bool_iff in E.
    + intros [->|(q & -> & Hq)]; cbn; [done|]. by rewrite (proj2 (Qeq_bool_iff _ _) Hq).
    + intros r ->. cbn. destruct (Qeq_bool r 0) eqn:E; [|done].
      symmetry. by apply Qeq_bool_iff.
    + by intros ->.
  - apply (IH (uuid ∘ S)).
Qed.

Lemma formatItems_ids uuid items :
  InvoiceItem.id <$> formatItems uuid items = uuid <$> seq 0 (length items).
Proof.
  unfold formatItems. revert uuid.
  induction items as [|it items IH]; intros uuid; cbn; [done|].
  f_equal. rewrite <- fmap_S_seq, <- list_fmap_compose. apply (IH (uuid ∘ S)).
Qed.

(** C8, as the code has it. The draft made from a payload copies the
    vendor name, the date and the due date as they are; it copies the
    currency, the category and each description when they are there
    and are not the empty string, the tags when they are there, each
    quantity that is there and is not zero, and each rate; an absent or
    empty description becomes "Item", an absent or zero quantity 1, an
    absent rate 0, an absent or empty category "General", absent tags
    the empty sequence and an absent or empty currency the preferred
    currency. The ids of the items are the UUIDs drawn in turn, all
    different when the generator never repeats itself; the total is the
    sum of quantity times rate over the items of the draft, the status
    is UNPAID and the type is expense. *)
Theorem template_of_payload uuid now preferredCurrency data items :
  let d := invoiceTemplate uuid now preferredCurrency data items in
  Draft.vendorName d = Payload.vendorName data /\
  Draft.date d = Payload.date data /\
  Draft.dueDate d = Payload.dueDate data /\
  (forall c, presentS (Payload.currency data) c -> Draft.currency d = Some c) /\
  (falsyS (Payload.currency data) = true -> Draft.currency d = Some preferredCurrency) /\
  (forall c, presentS (Payload.category data) c -> Draft.category d = Some c) /\
  (falsyS (Payload.category data) = true -> Draft.category d = Some "General") /\
  (forall t, Payload.tags data = Some t -> Draft.tags d = Some t) /\
  (Payload.tags data = None -> Draft.tags d = Some []) /\
  Draft.status d = Some UNPAID /\
  Draft.type d = Some expense /\
  exists items',
    Draft.items d = Some items' /\
    Draft.total d = Some (sumItems items') /\
    Forall2 formatted items items' /\
    InvoiceItem.id <$> items' = uuid <$> seq 0 (length items) /\
    ((forall a b, uuid a = uuid b -> a = b) -> NoDup (InvoiceItem.id <$> items')).
Proof.
  cbn. split_and!; try done.
  - intros c Hc. by rewrite (orS_present _ c).
  - intros Hc. by rewrite orS_falsy.
  - intros c Hc. by rewrite (orS_present _ c).
  - intros Hc. by rewrite orS_falsy.
  - by intros t ->.
  - by intros ->.
  - exists (formatItems uuid items). split_and!; try done.
    + apply formatItems_formatted.
    + apply formatItems_ids.
    + intros Hinj. rewrite formatItems_ids.
      apply NoDup_fmap_2_strong; [auto|apply NoDup_seq].
Qed.

(** C8 does not hold as stated: a description that is there but empty
    is not copied, it becomes "Item". *)
Lemma empty_description_defaulted :
  Payload.items Coffee.emptyDescription
  = Some [PayloadItem.mk (Some "") (Some 2%Q) (Some 3%Q)] /\
  Draft.items (invoiceTemplate pretty "t1" "INR" Coffee.emptyDescription
                 [PayloadItem.mk (Some "") (Some 2%Q) (Some 3%Q)])
  = Some [InvoiceItem.mk "0" "Item" 2 3] /\
  (InvoiceItem.description <$>
     mjoin (Invoice.items <$>
              invoices (handleCapture pretty "t1" "INR"
                          (Parsed Coffee.emptyDescription) initialState)))
  = ["Item"].
Proof. split_and!; reflexivity. Qed.

(** The currency of the complete payload is kept. *)
Lemma template_of_payload_witness :
  Draft.currency (invoiceTemplate pretty "t1" "INR" Coffee.complete Coffee.items)
  = Some "USD".
Proof.
  refine (proj1 (proj2 (proj2 (proj2
            (template_of_payload pretty "t1" "INR" Coffee.complete Coffee.items))))
            "USD" _).
  split; [reflexivity|discriminate].
Defined.

(** ** The form *)

Lemma Form_handle_fixed f e :
  Form.initialData (Form.handle f e) = Form.initialData f /\
  Form.status (Form.handle f e) = Form.status f.
Proof. destruct e; cbn; repeat case_bool_decide; done. Qed.

Lemma Form_events_fixed events f :
  Form.initialData (foldl Form.handle f events) = Form.initialData f /\
  Form.status (foldl Form.handle f events) = Form.status f.
Proof.
  revert f. induction events as [|e events IH]; intros f; cbn; [done|].
  destruct (IH (Form.handle f e)) as [-> ->]. apply Form_handle_fixed.
Qed.

Lemma Form_handleSave_Some uuid now f invoice :
  Form.handleSave uuid now f = Some invoice ->
  Invoice.id invoice = orS (Form.initialData f ≫= Draft.id) uuid /\
  Invoice.status invoice = Form.status f /\
  Invoice.total invoice = sumItems (Invoice.items invoice).
Proof.
  unfold Form.handleSave. destruct (Form.validate f); [|done].
  by intros [= <-].
Qed.

(** ** The invoices after a save *)

Lemma handleSaveInvoice_elem fresh now invoice st inv' :
  inv' ∈ invoices (handleSaveInvoice fresh now invoice st) ->
  inv' = withProfile invoice (reconcile fresh invoice st).2 now \/
  (inv' ∈ invoices st /\ Invoice.id inv' <> Invoice.id invoice).
Proof.
  rewrite invoices_handleSaveInvoice. cbn zeta.
  destruct (findInvoice _ _) as [previous|] eqn:E.
  - intros (y & -> & Hy)%list_elem_of_fmap. case_bool_decide; [by left|by right].
  - intros [->|Hin]%elem_of_cons; [by left|]. right. split; [done|].
    apply findInvoice_None in E. intros Hid. apply E.
    rewrite <- Hid. by apply list_elem_of_fmap_2.
Qed.

Lemma handleSaveInvoice_Forall (P : Invoice.t -> Prop) fresh now invoice st :
  Forall P (invoices st) ->
  P (withProfile invoice (reconcile fresh invoice st).2 now) ->
  Forall P (invoices (handleSaveInvoice fresh now invoice st)).
Proof.
  intros Hst Hnew. apply Forall_forall.
  intros inv' [->|[Hin _]]%handleSaveInvoice_elem; [done|].
  rewrite Forall_forall in Hst. auto.
Qed.

Lemma handleSaveInvoice_NoDup fresh now invoice st :
  NoDup (storedIds st) -> NoDup (storedIds (handleSaveInvoice fresh now invoice st)).
Proof.
  unfold storedIds. rewrite invoices_handleSaveInvoice. cbn zeta.
  destruct (findInvoice _ _) as [previous|] eqn:E.
  - rewrite <- list_fmap_compose.
    match goal with |- _ -> NoDup (?f <$> _) =>
      rewrite (list_fmap_ext f Invoice.id); [done|] end.
    intros i x _. cbn. by case_bool_decide.
  - intros Hst. cbn. apply NoDup_cons. split; [|done].
    by apply findInvoice_None.
Qed.

Lemma unique_id (l : list Invoice.t) a b :
  NoDup (Invoice.id <$> l) -> a ∈ l -> b ∈ l -> Invoice.id a = Invoice.id b -> a = b.
Proof.
  intros Hl [i Hi]%list_elem_of_lookup [j Hj]%list_elem_of_lookup Hid.
  assert (i = j) as ->; [|congruence].
  apply (NoDup_lookup (Invoice.id <$> l) i j (Invoice.id a) Hl).
  - by rewrite list_lookup_fmap, Hi.
  - by rewrite list_lookup_fmap, Hj, Hid.
Qed.

(** ** Capture *)

Lemma asInvoice_template id uuid now preferredCurrency data items invoice :
  asInvoice id (invoiceTemplate uuid now preferredCurrency data items) = Some invoice ->
  Invoice.id invoice = id /\
  Invoice.status invoice = UNPAID /\
  Invoice.total invoice = sumItems (Invoice.items invoice).
Proof.
  unfold asInvoice, invoiceTemplate. cbn.
  destruct (Payload.vendorName data); [|done].
  destruct (Payload.date data); [|done].
  destruct (Payload.dueDate data); [|done].
  cbn. by intros [= <-].
Qed.

Lemma asInvoice_valid id uuid now preferredCurrency data items :
  validateInvoice (invoiceTemplate uuid now preferredCurrency data items) = true ->
  is_Some (asInvoice id (invoiceTemplate uuid now preferredCurrency data items)).
Proof.
  intros Hvalid.
  destruct (validateInvoice_false (invoiceTemplate uuid now preferredCurrency data items))
    as [_ Hfalse].
  unfold asInvoice, invoiceTemplate in *. cbn in *.
  destruct (Payload.vendorName data);
    [|rewrite Hfalse in Hvalid; [done|by left]].
  destruct (Payload.date data);
    [|rewrite Hfalse in Hvalid; [done|by right; left]].
  destruct (Payload.dueDate data);
    [|rewrite Hfalse in Hvalid; [done|by right; right; left]].
  cbn. eauto.
Qed.

(** A capture either opens the form on a draft without id and leaves
    the invoices alone, or saves a new invoice, UNPAID and with the
    total of its items, under one of the drawn UUIDs. *)
Lemma handleCapture_cases uuid now preferredCurrency r st :
  let st' := handleCapture uuid now preferredCurrency r st in
  (invoices st' = invoices st /\ view st' = EDITING /\
   exists d, scannedData st' = Some d /\ Draft.id d = None) \/
  (exists k fresh invoice,
     Invoice.id invoice = uuid k /\
     Invoice.status invoice = UNPAID /\
     Invoice.total invoice = sumItems (Invoice.items invoice) /\
     invoices st' = invoices (handleSaveInvoice fresh now invoice st) /\
     view st' = DASHBOARD /\ scannedData st' = None).
Proof.
  unfold handleCapture.
  destruct (extractInvoiceData r) as [message|data].
  { left. cbn. eauto. }
  destruct (Payload.items data) as [items|]; [|left; cbn; eauto].
  cbn zeta.
  destruct (validateInvoice _) eqn:Hvalid; [|left; cbn; eauto].
  destruct (asInvoice_valid (uuid (length items)) _ _ _ _ _ Hvalid) as [invoice Hinv].
  rewrite Hinv. apply asInvoice_template in Hinv as (Hid & Hstatus & Htotal).
  right. exists (length items), (uuid (S (length items))), invoice.
  split_and!; try done. apply view_handleSaveInvoice.
Qed.

(** ** Reachable states *)

Lemma storedIds_filter (P : Invoice.t -> Prop) `{!forall x, Decision (P x)} l :
  NoDup (Invoice.id <$> l) -> NoDup (Invoice.id <$> filter P l).
Proof.
  intros Hl. apply (sublist_NoDup _ (Invoice.id <$> l)); [done|].
  apply fmap_sublist, sublist_filter.
Qed.

Lemma storedIds_handleBulkMarkPaid now ids st :
  storedIds (handleBulkMarkPaid now ids st) = storedIds st.
Proof.
  unfold storedIds. cbn. rewrite <- list_fmap_compose.
  apply list_fmap_ext. intros i x _. cbn. by case_bool_decide.
Qed.

Lemma step_consistent st st' : consistent st -> step st st' -> consistent st'.
Proof.
  intros (Hnd & Hview & Hdraft) Hstep.
  destruct Hstep as [st Hv|st Hv|uuid now cur r st Hv Hfresh|cur st Hv|invoice st Hv Hin
                    |today due uuid0 events uuid uuid' now invoice st Hv Hsave Hfresh
                    |st Hv|confirmed ids st Hv|now ids st Hv|st].
  - split_and!; cbn; [done| |done]. intros _. apply Hview. congruence.
  - split_and!; cbn; [done| |done]. intros _. apply Hview. congruence.
  - destruct (handleCapture_cases uuid now cur r st)
      as [(Hinv & Hv' & d & Hd & Hid)
         |(k & fresh & invoice & _ & _ & _ & Hinv & Hv' & Hd)].
    + split_and!.
      * unfold storedIds. by rewrite Hinv.
      * by rewrite Hv'.
      * intros d' i. rewrite Hd. intros [= <-]. by rewrite Hid.
    + split_and!.
      * unfold storedIds. rewrite Hinv. by apply handleSaveInvoice_NoDup.
      * done.
      * intros d' i. by rewrite Hd.
  - split_and!; cbn; [done|done|]. by intros d i [= <-].
  - split_and!; cbn; [done|done|]. intros d i [= <-] _. by exists invoice.
  - destruct (view_handleSaveInvoice uuid' now invoice st) as [Hv' Hd].
    split_and!.
    + by apply handleSaveInvoice_NoDup.
    + done.
    + intros d i. by rewrite Hd.
  - split_and!; cbn; [done|done|done].
  - assert (scannedData st = None) as Hnone by (apply Hview; congruence).
    destruct confirmed; cbn; [|done].
    split_and!; cbn; [by apply storedIds_filter|done|]. intros d i. by rewrite Hnone.
  - assert (scannedData st = None) as Hnone by (apply Hview; congruence).
    split_and!; [by rewrite storedIds_handleBulkMarkPaid|done|].
    cbn. intros d i. by rewrite Hnone.
  - done.
Qed.

Lemma reachable_consistent st : reachable st -> consistent st.
Proof.
  revert st. apply rtc_ind_r.
  - split_and!; [constructor|done|done].
  - intros st st' _ Hstep IH. by apply (step_consistent st).
Qed.

(** C5. In every state that the application reaches, the total of each
    stored invoice is the sum of quantity times rate over its items:
    the save after an extraction and the save of the form both store
    the total they have just computed, and no other operation touches
    the total or the items. *)
Theorem reachable_totals st :
  reachable st ->
  Forall (fun inv => Invoice.total inv = sumItems (Invoice.items inv)) (invoices st).
Proof.
  revert st. apply rtc_ind_r; [constructor|].
  intros st0 st' _ Hstep IH.
  destruct Hstep as [st Hv|st Hv|uuid now cur r st Hv Hfresh|cur st Hv|invoice st Hv Hin
                    |today due uuid0 events uuid uuid' now invoice st Hv Hsave Hfresh
                    |st Hv|confirmed ids st Hv|now ids st Hv|st]; try exact IH.
  - destruct (handleCapture_cases uuid now cur r st)
      as [(Hinv & _)|(k & fresh & invoice & _ & _ & Htotal & Hinv & _)];
      rewrite Hinv; [done|].
    by apply handleSaveInvoice_Forall.
  - apply Form_handleSave_Some in Hsave as (_ & _ & Htotal).
    by apply handleSaveInvoice_Forall.
  - destruct confirmed; cbn; [|done].
    apply Forall_forall. rewrite Forall_forall in IH.
    intros inv [_ Hin]%list_elem_of_filter. auto.
  - cbn. apply Forall_fmap. eapply Forall_impl; [exact IH|].
    intros inv Hinv. cbn. by case_bool_decide.
Qed.

(** ** PAID is final *)

Lemma save_keeps_paid fresh now invoice st inv inv' :
  NoDup (storedIds st) ->
  inv ∈ invoices st -> Invoice.status inv = PAID ->
  (Invoice.id invoice ∉ storedIds st \/
   exists x, x ∈ invoices st /\ Invoice.id x = Invoice.id invoice
             /\ Invoice.status invoice = Invoice.status x) ->
  inv' ∈ invoices (handleSaveInvoice fresh now invoice st) ->
  Invoice.id inv' = Invoice.id inv ->
  Invoice.status inv' = PAID.
Proof.
  intros Hnd Hin Hpaid Hsrc [->|[Hin' _]]%handleSaveInvoice_elem Hid.
  - cbn in *. destruct Hsrc as [Hfresh|(x & Hx & Hidx & Hstatus)].
    + destruct Hfresh. rewrite Hid. by apply list_elem_of_fmap_2.
    + rewrite Hstatus, <- Hpaid. f_equal.
      apply (unique_id (invoices st)); [done..|congruence].
  - rewrite <- Hpaid. f_equal. by apply (unique_id (invoices st)).
Qed.

(** Where the invoice saved by the form comes from: it is new, under
    the UUID just drawn, or it is the stored invoice that was opened,
    with the status that invoice has. *)
Lemma formSave_source today due uuid0 events uuid now invoice st :
  consistent st ->
  Form.handleSave uuid now
    (foldl Form.handle (Form.init today due uuid0 (scannedData st)) events) = Some invoice ->
  Invoice.id invoice = uuid \/
  exists x, x ∈ invoices st /\ Invoice.id x = Invoice.id invoice
            /\ Invoice.status invoice = Invoice.status x.
Proof.
  intros (_ & _ & Hdraft) (Hid & Hstatus & _)%Form_handleSave_Some.
  destruct (Form_events_fixed events (Form.init today due uuid0 (scannedData st)))
    as [Hinit Hst].
  rewrite Hinit in Hid. rewrite Hst in Hstatus. cbn in Hid, Hstatus.
  destruct (scannedData st) as [d|] eqn:Hd; [|by left].
  cbn in Hid, Hstatus.
  destruct (Draft.id d) as [i|] eqn:Hi; [|by left].
  cbn in Hid. case_bool_decide; [by left|].
  destruct (Hdraft d i eq_refl Hi) as (x & Hx & ->).
  right. exists x. cbn in *. split_and!; [done| |done]. congruence.
Qed.

(** C9. No operation takes a stored invoice from PAID back to UNPAID:
    after any step from a reachable state, an invoice that was stored
    as PAID is, if an invoice of its id is still stored, stored as PAID.
    A stored status is PAID or UNPAID, never anything else. *)
Theorem paid_stays_paid st st' inv inv' :
  reachable st -> step st st' ->
  inv ∈ invoices st -> Invoice.status inv = PAID ->
  inv' ∈ invoices st' -> Invoice.id inv' = Invoice.id inv ->
  Invoice.status inv' = PAID /\
  Forall (fun x => Invoice.status x = PAID \/ Invoice.status x = UNPAID) (invoices st').
Proof.
  intros Hst Hstep Hin Hpaid Hin' Hid.
  split; [|apply Forall_forall; intros x _; destruct (Invoice.status x); auto].
  pose proof (reachable_consistent st Hst) as Hcons.
  pose proof Hcons as (Hnd & _).
  assert (Hsame : inv' ∈ invoices st -> Invoice.status inv' = PAID).
  { intros Hold. rewrite <- Hpaid. f_equal. by apply (unique_id (invoices st)). }
  destruct Hstep as [st Hv|st Hv|uuid now cur r st Hv Hfresh|cur st Hv|invoice st Hv Hin0
                    |today due uuid0 events uuid uuid' now invoice st Hv Hsave Hfresh
                    |st Hv|confirmed ids st Hv|now ids st Hv|st]; try by apply Hsame.
  - destruct (handleCapture_cases uuid now cur r st)
      as [(Hinv & _)|(k & fresh & invoice & Hk & _ & _ & Hinv & _)];
      rewrite Hinv in Hin'; [by apply Hsame|].
    apply (save_keeps_paid fresh now invoice st inv); try done.
    left. rewrite Hk. apply Hfresh.
  - apply (save_keeps_paid uuid' now invoice st inv); try done.
    destruct (formSave_source _ _ _ _ _ _ _ _ Hcons Hsave) as [->|?]; [by left|by right].
  - destruct confirmed; [|by apply Hsame].
    cbn in Hin'. apply list_elem_of_filter in Hin' as [_ Hold]. by apply Hsame.
  - cbn in Hin'. apply list_elem_of_fmap in Hin' as (y & -> & Hy).
    case_bool_decide; [done|by apply Hsame].
Qed.

(** ** A session, step by step *)

Lemma Session_captured_reachable : reachable Session.captured.
Proof.
  eapply rtc_l; [apply step_openScanner; reflexivity|].
  eapply rtc_l; [|apply rtc_refl].
  apply (step_capture pretty "t1" "INR" (Parsed Coffee.complete)); [reflexivity|].
  intros k. apply not_elem_of_nil.
Defined.

Lemma Session_editing_reachable : reachable Session.editing.
Proof.
  eapply rtc_r; [eapply rtc_r; [apply Session_captured_reachable|]|].
  - apply (step_bulkMarkPaid "t2" ["1"]). reflexivity.
  - apply (step_edit Session.paidInvoice Session.paid); [reflexivity|].
    apply list_elem_of_here.
Defined.

Lemma Session_save_step : step Session.editing Session.saved.
Proof.
  apply (step_formSave "2024-01-10" "2024-02-09" "u0" Session.events "u9" "u8" "t4").
  - reflexivity.
  - reflexivity.
  - intros [[=]|[]%not_elem_of_nil]%elem_of_cons.
Defined.

(** The totals after the capture of the session. *)
Lemma reachable_totals_witness :
  reachable Session.captured /\
  Forall (fun inv => Invoice.total inv = sumItems (Invoice.items inv))
         (invoices Session.captured).
Proof.
  split; [apply Session_captured_reachable|].
  exact (reachable_totals Session.captured Session_captured_reachable).
Defined.

(** The paid invoice of the session, edited in the form, is stored as
    PAID again. *)
Lemma paid_stays_paid_witness :
  Session.paidInvoice ∈ invoices Session.editing /\
  Invoice.status Session.paidInvoice = PAID /\
  withProfile Session.edited "u8" "t4" ∈ invoices Session.saved /\
  Invoice.status (withProfile Session.edited "u8" "t4") = PAID.
Proof.
  assert (H1 : Session.paidInvoice ∈ invoices Session.editing) by apply list_elem_of_here.
  assert (H2 : withProfile Session.edited "u8" "t4" ∈ invoices Session.saved)
    by apply list_elem_of_here.
  split_and!; [exact H1|reflexivity|exact H2|].
  exact (proj1 (paid_stays_paid Session.editing Session.saved Session.paidInvoice
                  (withProfile Session.edited "u8" "t4")
                  Session_editing_reachable Session_save_step
                  H1 eq_refl H2 eq_refl)).
Defined.

(** * Further properties of the ledger *)

(** ** Sums over lists *)

Section Sums.
Context {A : Type} (w : A -> Z).

Lemma sumOf_app (l k : list A) : sumOf w (l ++ k)%list = sumOf w l + sumOf w k.
Proof. unfold sumOf. induction l as [|x l IH]; cbn; [done|]. rewrite IH. lia. Qed.

Lemma sumOf_insert (l : list A) i x y :
  l !! i = Some x -> sumOf w (<[i := y]> l) = sumOf w l - w x + w y.
Proof.
  unfold sumOf. revert i. induction l as [|a l IH]; intros [|i] Hi; try done; csimpl in *.
  - injection Hi as ->. lia.
  - rewrite (IH i Hi). lia.
Qed.

Lemma sumOf_filter_le (P : A -> Prop) `{!forall x, Decision (P x)} (l : list A) :
  (forall x, x ∈ l -> ~ P x -> w x <= 0) -> sumOf w l <= sumOf w (filter P l).
Proof.
  induction l as [|a l IH]; intros Hl; [done|].
  assert (IH' : sumOf w l <= sumOf w (filter P l)).
  { apply IH. intros x Hx. apply Hl. by apply list_elem_of_further. }
  destruct (decide (P a)) as [Ha|Ha].
  - rewrite (filter_cons_True P a l) by done. unfold sumOf in *. cbn. lia.
  - rewrite (filter_cons_False P a l) by done. unfold sumOf in *. cbn.
    pose proof (Hl a (list_elem_of_here _ _) Ha). lia.
Qed.

Lemma sumOf_filter_eq (P : A -> Prop) `{!forall x, Decision (P x)} (l : list A) :
  (forall x, x ∈ l -> ~ P x -> w x = 0) -> sumOf w (filter P l) = sumOf w l.
Proof.
  induction l as [|a l IH]; intros Hl; [done|].
  assert (IH' : sumOf w (filter P l) = sumOf w l).
  { apply IH. intros x Hx. apply Hl. by apply list_elem_of_further. }
  destruct (decide (P a)) as [Ha|Ha].
  - rewrite (filter_cons_True P a l) by done. unfold sumOf in *. cbn. lia.
  - rewrite (filter_cons_False P a l) by done. unfold sumOf in *. cbn.
    pose proof (Hl a (list_elem_of_here _ _) Ha). lia.
Qed.

Lemma sumOf_sublist (l k : list A) :
  (forall x, 0 <= w x) -> l `sublist_of` k -> sumOf w l <= sumOf w k.
Proof.
  intros Hw. unfold sumOf. induction 1 as [|x l k _ IH|x l k _ IH]; cbn; [done|lia|].
  pose proof (Hw x). lia.
Qed.
End Sums.

Lemma NoDup_fmap_unique {A B} (f : A -> B) (l : list A) a b :
  NoDup (f <$> l) -> a ∈ l -> b ∈ l -> f a = f b -> a = b.
Proof.
  intros Hl [i Hi]%list_elem_of_lookup [j Hj]%list_elem_of_lookup Hf.
  assert (i = j) as ->; [|congruence].
  apply (NoDup_lookup (f <$> l) i j (f a) Hl).
  - by rewrite list_lookup_fmap, Hi.
  - by rewrite list_lookup_fmap, Hj, Hf.
Qed.

(** With pairwise different ids, replacing by id is replacing at an index. *)
Lemma replace_by_id (l : list Invoice.t) j x stored :
  NoDup (Invoice.id <$> l) -> l !! j = Some x ->
  (fun inv => if bool_decide (Invoice.id inv = Invoice.id x) then stored else inv) <$> l
  = <[j := stored]> l.
Proof.
  intros Hl Hj. apply list_eq. intros n. rewrite list_lookup_fmap.
  destruct (decide (n = j)) as [->|Hn].
  - rewrite list_lookup_insert_eq by (by eapply lookup_lt_Some).
    rewrite Hj. cbn. by rewrite bool_decide_eq_true_2.
  - rewrite list_lookup_insert_ne by done.
    destruct (l !! n) as [y|] eqn:Hy; [|done]. cbn.
    case_bool_decide as Hid; [|done]. destruct Hn.
    apply (NoDup_lookup (Invoice.id <$> l) n j (Invoice.id y) Hl).
    + by rewrite list_lookup_fmap, Hy.
    + by rewrite list_lookup_fmap, Hj, Hid.
Qed.

(** ** How a save moves the counts *)

Lemma countedFor_undoPrevious_ge k previous l :
  countedFor k l - leaving k previous <= countedFor k (undoPrevious previous l).
Proof.
  unfold undoPrevious, leaving. destruct previous as [x|]; [|lia].
  destruct (list_find _ l) as [[i p]|] eqn:E.
  - apply list_find_Some in E as (Hi & Hp & _). unfold countedFor.
    rewrite (sumOf_insert _ l i p _ Hi). unfold profileKey, vendorKey. cbn.
    unfold sameVendor in Hp. rewrite Hp.
    destruct (decide (toLowerCase (Invoice.vendorName x) = k)); lia.
  - destruct (decide (vendorKey x = k)); lia.
Qed.

Lemma countedFor_undoPrevious_eq k x l :
  Forall inUse l ->
  is_Some (list_find (sameVendor (Invoice.vendorName x)) l) ->
  countedFor k (undoPrevious (Some x) l) = countedFor k l - leaving k (Some x).
Proof.
  intros Hl [[i p] E]. unfold undoPrevious, leaving. rewrite E.
  apply list_find_Some in E as (Hi & Hp & _). unfold countedFor.
  rewrite (sumOf_insert _ l i p _ Hi). unfold profileKey, vendorKey. cbn.
  unfold sameVendor in Hp. rewrite Hp.
  assert (inUse p) as [Hc _].
  { rewrite Forall_forall in Hl. apply Hl, list_elem_of_lookup. eauto. }
  destruct (decide (toLowerCase (Invoice.vendorName x) = k)); lia.
Qed.

Lemma countedFor_applyNew k fresh invoice l :
  countedFor k (applyNew fresh invoice l).1 = countedFor k l + joining k invoice.
Proof.
  unfold applyNew, joining.
  destruct (list_find _ l) as [[i p]|] eqn:E; cbn [fst].
  - apply list_find_Some in E as (Hi & Hp & _). unfold countedFor.
    rewrite (sumOf_insert _ l i p _ Hi). unfold profileKey, vendorKey. cbn.
    unfold sameVendor in Hp. rewrite Hp.
    destruct (decide (toLowerCase (Invoice.vendorName invoice) = k)); lia.
  - unfold countedFor. rewrite sumOf_app. unfold sumOf, profileKey, vendorKey. cbn.
    destruct (decide (toLowerCase (Invoice.vendorName invoice) = k)); lia.
Qed.

Lemma findInvoice_lookup id l x :
  findInvoice id l = Some x -> exists j, l !! j = Some x /\ Invoice.id x = id.
Proof.
  unfold findInvoice. destruct (list_find _ l) as [[i y]|] eqn:E; [|done].
  intros [= <-]. apply list_find_Some in E as (Hi & Hid & _). eauto.
Qed.

Lemma invoicesOf_handleSaveInvoice k fresh now invoice st :
  NoDup (storedIds st) ->
  invoicesOf k (invoices (handleSaveInvoice fresh now invoice st))
  = invoicesOf k (invoices st)
    - leaving k (findInvoice (Invoice.id invoice) (invoices st))
    + joining k invoice.
Proof.
  intros Hnd. rewrite invoices_handleSaveInvoice. cbn zeta.
  unfold leaving, joining.
  destruct (findInvoice _ _) as [x|] eqn:E.
  - apply findInvoice_lookup in E as (j & Hj & Hid). rewrite <- Hid.
    rewrite (replace_by_id _ j x _ Hnd Hj). unfold invoicesOf.
    rewrite (sumOf_insert _ _ j x _ Hj). unfold vendorKey. cbn. lia.
  - unfold invoicesOf, sumOf, vendorKey. cbn. lia.
Qed.

Lemma invoicesOf_pos k l x : x ∈ l -> vendorKey x = k -> 1 <= invoicesOf k l.
Proof.
  unfold invoicesOf, sumOf. induction 1 as [x l|x y l _ IH]; intros Hk; cbn.
  - rewrite decide_True by done.
    assert (0 <= sumOf (fun inv => if decide (vendorKey inv = k) then 1 else 0) l).
    { clear. induction l as [|a l IH]; cbn; [done|]. unfold sumOf in *.
      destruct (decide (vendorKey a = k)); lia. }
    unfold sumOf in *. lia.
  - specialize (IH Hk). destruct (decide (vendorKey y = k)); lia.
Qed.

Lemma countedFor_noMatch vendor l :
  list_find (sameVendor vendor) l = None -> countedFor (toLowerCase vendor) l = 0.
Proof.
  intros E%list_find_None. unfold countedFor, sumOf.
  induction E as [|p l Hp _ IH]; cbn; [done|].
  unfold sameVendor in Hp. unfold profileKey at 1. rewrite decide_False by done. lia.
Qed.

Lemma countedFor_unique k l p :
  NoDup (profileKey <$> l) -> p ∈ l -> profileKey p = k ->
  countedFor k l = CustomerProfile.invoiceCount p.
Proof.
  unfold countedFor, sumOf. intros Hl Hp Hk.
  induction l as [|q l IH]; [by apply not_elem_of_nil in Hp|].
  cbn in Hl. apply NoDup_cons in Hl as [Hq Hl]. cbn.
  apply elem_of_cons in Hp as [->|Hp].
  - rewrite decide_True by done.
    assert (foldr (fun x acc => (if decide (profileKey x = k)
                                 then CustomerProfile.invoiceCount x else 0) + acc) 0 l = 0)
      as ->; [|lia].
    clear IH Hl. induction l as [|r l IH]; cbn; [done|].
    rewrite decide_False.
    + rewrite IH; [lia|]. intros Hin. apply Hq. cbn. by apply list_elem_of_further.
    + intros Hr. apply Hq. cbn. rewrite Hk, <- Hr. apply list_elem_of_here.
  - rewrite decide_False; [rewrite (IH Hl Hp); lia|].
    intros Hq'. apply Hq. rewrite Hq', <- Hk. by apply list_elem_of_fmap_2.
Qed.

(** ** What a save keeps of the profiles *)

Lemma keys_undoPrevious previous l :
  profileKey <$> undoPrevious previous l = profileKey <$> l.
Proof.
  unfold undoPrevious. destruct previous as [x|]; [|done].
  destruct (list_find _ l) as [[i p]|] eqn:E; [|done].
  apply list_find_Some in E as (Hi & _ & _).
  rewrite list_fmap_insert. apply list_insert_id.
  by rewrite list_lookup_fmap, Hi.
Qed.

Lemma keys_applyNew fresh invoice l :
  NoDup (profileKey <$> l) -> NoDup (profileKey <$> (applyNew fresh invoice l).1).
Proof.
  intros Hl. unfold applyNew.
  destruct (list_find _ l) as [[i p]|] eqn:E; cbn [fst].
  - apply list_find_Some in E as (Hi & Hp & _).
    rewrite list_fmap_insert, list_insert_id; [done|].
    by rewrite list_lookup_fmap, Hi.
  - rewrite fmap_app. apply NoDup_app. split_and!; [done| |apply NoDup_singleton].
    intros k (q & -> & Hq)%list_elem_of_fmap Hk. cbn in Hk.
    apply elem_of_cons in Hk as [Hk|Hk]; [|by apply not_elem_of_nil in Hk].
    apply list_find_None in E. rewrite Forall_forall in E. by apply (E q).
Qed.

(** A profile is still there, under its id and name, after an update
    in place. *)
Lemma insert_keeps (l : list CustomerProfile.t) i x y p :
  l !! i = Some x ->
  CustomerProfile.id y = CustomerProfile.id x ->
  CustomerProfile.name y = CustomerProfile.name x ->
  p ∈ l ->
  exists q, q ∈ <[i := y]> l /\ CustomerProfile.id q = CustomerProfile.id p
            /\ CustomerProfile.name q = CustomerProfile.name p.
Proof.
  intros Hi Hid Hname [n Hn]%list_elem_of_lookup.
  destruct (decide (n = i)) as [->|Hne].
  - exists y. rewrite Hi in Hn. injection Hn as <-. split; [|done].
    apply list_elem_of_lookup. exists i.
    apply list_lookup_insert_eq. by eapply lookup_lt_Some.
  - exists p. split; [|done]. apply list_elem_of_lookup. exists n.
    by rewrite list_lookup_insert_ne.
Qed.

Lemma undoPrevious_keeps previous l p :
  p ∈ l ->
  exists q, q ∈ undoPrevious previous l /\ CustomerProfile.id q = CustomerProfile.id p
            /\ CustomerProfile.name q = CustomerProfile.name p.
Proof.
  intros Hp. unfold undoPrevious. destruct previous as [x|]; [|by exists p].
  destruct (list_find _ l) as [[i p0]|] eqn:E; [|by exists p].
  apply list_find_Some in E as (Hi & _ & _). by apply (insert_keeps l i p0).
Qed.

Lemma applyNew_keeps fresh invoice l p :
  p ∈ l ->
  exists q, q ∈ (applyNew fresh invoice l).1 /\ CustomerProfile.id q = CustomerProfile.id p
            /\ CustomerProfile.name q = CustomerProfile.name p.
Proof.
  intros Hp. unfold applyNew.
  destruct (list_find _ l) as [[i p0]|] eqn:E; cbn [fst].
  - apply list_find_Some in E as (Hi & _ & _). by apply (insert_keeps l i p0).
  - exists p. split; [|done]. apply elem_of_app. by left.
Qed.

Lemma inUse_nonNegative p : inUse p -> nonNegative p.
Proof. intros [Hc Hs]. split; [lia|done]. Qed.

Lemma applyNew_nonNegative fresh invoice l :
  (0 <= Invoice.total invoice)%Q ->
  Forall nonNegative l -> Forall nonNegative (applyNew fresh invoice l).1.
Proof.
  intros Ht Hl. unfold applyNew.
  destruct (list_find _ l) as [[i p]|] eqn:E; cbn [fst].
  - apply list_find_Some in E as (Hi & _ & _).
    assert (nonNegative p) as [Hc Hs].
    { rewrite Forall_forall in Hl. apply Hl, list_elem_of_lookup. eauto. }
    apply Forall_insert; [done|]. split; cbn; [lia|lra].
  - apply Forall_app. split; [done|]. repeat constructor; cbn; [lia|done].
Qed.

(** The profiles before the sweep, and what is known of them. *)
Lemma presweep_facts fresh invoice st :
  NoDup (profileKey <$> profiles st) ->
  Forall inUse (profiles st) ->
  (0 <= Invoice.total invoice)%Q ->
  let P2 := (applyNew fresh invoice
               (undoPrevious (findInvoice (Invoice.id invoice) (invoices st))
                  (profiles st))).1 in
  NoDup (profileKey <$> P2) /\
  Forall nonNegative P2 /\
  (forall p, p ∈ P2 -> profileKey p = vendorKey invoice -> inUse p).
Proof.
  intros Hkeys Huse Ht P2.
  set (U := undoPrevious (findInvoice (Invoice.id invoice) (invoices st)) (profiles st)) in *.
  assert (HU : Forall nonNegative U).
  { apply undoPrevious_nonNegative. eapply Forall_impl; [exact Huse|].
    apply inUse_nonNegative. }
  assert (HkU : NoDup (profileKey <$> U)) by (subst U; by rewrite keys_undoPrevious).
  assert (Hk2 : NoDup (profileKey <$> P2)) by (by apply keys_applyNew).
  split_and!; [done|by apply applyNew_nonNegative|].
  intros p Hp Hkey.
  destruct (applyNew_first fresh invoice U) as (i & q & Hfind & _ & Horigin).
  fold P2 in Hfind. apply list_find_Some in Hfind as (Hq & Hqv & _).
  assert (p = q) as ->.
  { apply (NoDup_fmap_unique profileKey P2); [done|done| |].
    - apply list_elem_of_lookup. eauto.
    - by rewrite Hkey. }
  destruct Horigin as [(p0 & Hp0 & ->)| ->].
  - rewrite Forall_forall in HU. destruct (HU p0 Hp0) as [Hc Hs].
    split; cbn; [lia|lra].
  - split; cbn; [lia|done].
Qed.

Lemma sumItems_nonneg its : Forall itemOk its -> (0 <= sumItems its)%Q.
Proof.
  unfold sumItems. intros Hits.
  assert (forall a, (0 <= a)%Q ->
            (0 <= fold_left (fun sum it =>
                     sum + InvoiceItem.quantity it * InvoiceItem.rate it) its a)%Q) as H;
    [|by apply H].
  induction Hits as [|it its (_ & Hq & Hr) _ IH]; intros a Ha; cbn; [done|].
  apply IH.
  pose proof (Qmult_le_0_compat _ _ (Qlt_le_weak _ _ Hq) Hr). lra.
Qed.

Lemma wellFormed_total inv : wellFormed inv -> (0 <= Invoice.total inv)%Q.
Proof. intros (_ & _ & _ & _ & Hits & ->). by apply sumItems_nonneg. Qed.

Lemma save_sound fresh now invoice st :
  sound st -> wellFormed invoice -> sound (handleSaveInvoice fresh now invoice st).
Proof.
  intros (Hids & Hkeys & Huse & Hwf & Hunder & Hlinked) Hinv.
  pose proof (wellFormed_total _ Hinv) as Ht.
  destruct (presweep_facts fresh invoice st Hkeys Huse Ht) as (Hk2 & Hnn2 & Hv2).
  set (prev := findInvoice (Invoice.id invoice) (invoices st)) in *.
  set (U := undoPrevious prev (profiles st)) in *.
  set (P2 := (applyNew fresh invoice U).1) in *.
  assert (Hprofiles : profiles (handleSaveInvoice fresh now invoice st) = sweep invoice P2)
    by (by rewrite profiles_handleSaveInvoice, reconcile_eq).
  assert (Hpre : forall k, invoicesOf k (invoices (handleSaveInvoice fresh now invoice st))
                           <= countedFor k P2).
  { intros k. rewrite invoicesOf_handleSaveInvoice by done. fold prev.
    subst P2. rewrite countedFor_applyNew.
    pose proof (countedFor_undoPrevious_ge k prev (profiles st)). fold U in H.
    specialize (Hunder k). lia. }
  assert (Hkept : forall p, p ∈ P2 ->
            1 <= invoicesOf (profileKey p) (invoices (handleSaveInvoice fresh now invoice st)) ->
            p ∈ sweep invoice P2).
  { intros p Hp Hone. apply list_elem_of_filter. split; [|done]. left.
    specialize (Hpre (profileKey p)).
    rewrite (countedFor_unique _ P2 p Hk2 Hp eq_refl) in Hpre. lia. }
  split_and!.
  - by apply handleSaveInvoice_NoDup.
  - rewrite Hprofiles. apply (sublist_NoDup _ (profileKey <$> P2)); [done|].
    apply fmap_sublist, sublist_filter.
  - rewrite Hprofiles. apply Forall_forall. intros p [Hkp Hp]%list_elem_of_filter.
    destruct Hkp as [Hc|Hv]; [|by apply Hv2].
    rewrite Forall_forall in Hnn2. destruct (Hnn2 p Hp) as [_ Hs]. split; [lia|done].
  - apply handleSaveInvoice_Forall; [done|].
    destruct Hinv as (? & ? & ? & ? & ? & ?). by repeat split.
  - intros k. rewrite Hprofiles. etrans; [apply Hpre|].
    apply sumOf_filter_le. intros p _ Hnot.
    destruct (decide (profileKey p = k)); [|lia].
    destruct (decide (0 < CustomerProfile.invoiceCount p)); [|lia].
    destruct Hnot. by left.
  - apply Forall_forall. intros y Hy. rewrite Hprofiles.
    destruct (handleSaveInvoice_elem _ _ _ _ _ Hy) as [->|[Hold _]].
    + destruct (reconcile_first fresh invoice st) as (j & p & Hfind & Hid & _).
      rewrite reconcile_eq in Hfind. cbn [fst] in Hfind.
      apply list_find_Some in Hfind as (Hj & Hp & _).
      exists p. split_and!; [apply list_elem_of_lookup; eauto|exact Hp|].
      cbn. by rewrite Hid.
    + rewrite Forall_forall in Hlinked.
      destruct (Hlinked y Hold) as (p & Hp & Hkey & Hpid).
      destruct (undoPrevious_keeps prev _ p Hp) as (q & Hq & Hqid & Hqname).
      destruct (applyNew_keeps fresh invoice _ q Hq) as (r & Hr & Hrid & Hrname).
      assert (Hrkey : profileKey r = vendorKey y).
      { unfold profileKey in *. by rewrite Hrname, Hqname. }
      exists r. split_and!; [|done|by rewrite Hrid, Hqid].
      apply Hkept; [done|]. by apply (invoicesOf_pos _ _ y).
Qed.

(** ** What the two ways of saving hand over *)

Lemma blank_trimEnd s : blank (trimEnd s) = true -> trimEnd s = "".
Proof.
  induction s as [|c r IH]; cbn; [done|].
  destruct (trimEnd r) as [|c' r'] eqn:E.
  - destruct (isSpace c) eqn:Hc; [done|]. cbn. by rewrite Hc.
  - cbn. intros [_ H]%andb_true_iff. by apply IH in H.
Qed.

Lemma blank_trim s : trim s <> "" -> blank (trim s) = false.
Proof.
  intros Hs. apply not_true_iff_false. intros Hb. apply Hs. by apply blank_trimEnd.
Qed.

Lemma itemInvalid_false it : Form.itemInvalid it = false -> itemOk it.
Proof.
  unfold Form.itemInvalid. rewrite !orb_false_iff.
  intros [[Hd Hq] Hr]. apply bool_decide_eq_false in Hd. split_and!.
  - intros Hempty. apply Hd. by rewrite Hempty.
  - apply Qnot_le_lt. intros Hle. apply Qle_bool_iff in Hle. congruence.
  - apply Qnot_lt_le. intros Hlt. apply Qltb_lt in Hlt. congruence.
Qed.

Lemma Form_validate_true f :
  Form.validate f = true ->
  trim (Form.vendorName f) <> "" /\ Form.date f <> "" /\ Form.dueDate f <> "" /\
  Forall itemOk (Form.items f).
Proof.
  unfold Form.validate, Form.errors. intros H%bool_decide_eq_true.
  repeat case_bool_decide; try done.
  destruct (existsb Form.itemInvalid (Form.items f)) eqn:E; [done|].
  split_and!; try done. apply Forall_forall. intros it Hit.
  apply itemInvalid_false. apply not_true_iff_false. intros Hbad.
  apply not_true_iff_false in E. apply E, existsb_exists.
  exists it. split; [by apply list_elem_of_In|done].
Qed.

Lemma Form_handleSave_wellFormed uuid now f invoice :
  Form.handleSave uuid now f = Some invoice -> wellFormed invoice.
Proof.
  unfold Form.handleSave. destruct (Form.validate f) eqn:E; [|done].
  apply Form_validate_true in E as (Hv & Hd & Hdd & Hits).
  intros [= <-]. split_and!; cbn; try done. by apply blank_trim.
Qed.

Lemma itemValid_true it : itemValid it = true -> itemOk it.
Proof.
  intros Hvalid. split_and!.
  - intros Hd. assert (itemValid it = false); [|congruence].
    apply itemValid_false. by left.
  - apply Qnot_le_lt. intros Hq. assert (itemValid it = false); [|congruence].
    apply itemValid_false. by right; left.
  - apply Qnot_lt_le. intros Hr. assert (itemValid it = false); [|congruence].
    apply itemValid_false. by right; right.
Qed.

Lemma asInvoice_wellFormed id uuid now preferredCurrency data items invoice :
  validateInvoice (invoiceTemplate uuid now preferredCurrency data items) = true ->
  asInvoice id (invoiceTemplate uuid now preferredCurrency data items) = Some invoice ->
  wellFormed invoice.
Proof.
  intros Hvalid.
  destruct (validateInvoice_false (invoiceTemplate uuid now preferredCurrency data items))
    as [_ Hfalse].
  pose proof (fun H => eq_true_false_abs _ Hvalid (Hfalse H)) as Hnot.
  unfold asInvoice, invoiceTemplate in *. cbn in *.
  destruct (Payload.vendorName data) as [v|]; [|done].
  destruct (Payload.date data) as [d|]; [|done].
  destruct (Payload.dueDate data) as [dd|]; [|done].
  cbn. intros [= <-]. split_and!; cbn; try done.
  - apply not_true_iff_false. intros Hb. apply Hnot. by left.
  - intros ->. apply Hnot. by right; left.
  - intros ->. apply Hnot. by right; right; left.
  - apply Forall_forall. intros it Hit. apply itemValid_true.
    apply not_false_iff_true. intros Hbad. apply itemValid_false in Hbad.
    apply Hnot. do 5 right. eauto.
Qed.

(** A capture leaves the ledger alone or saves a well-formed invoice. *)
Lemma handleCapture_ledger uuid now preferredCurrency r st :
  let st' := handleCapture uuid now preferredCurrency r st in
  (invoices st' = invoices st /\ profiles st' = profiles st) \/
  (exists fresh invoice,
     wellFormed invoice /\
     invoices st' = invoices (handleSaveInvoice fresh now invoice st) /\
     profiles st' = profiles (handleSaveInvoice fresh now invoice st)).
Proof.
  unfold handleCapture.
  destruct (extractInvoiceData r) as [message|data]; [by left|].
  destruct (Payload.items data) as [items|]; [|by left].
  cbn zeta.
  destruct (validateInvoice _) eqn:Hvalid; [|by left].
  destruct (asInvoice_valid (uuid (length items)) _ _ _ _ _ Hvalid) as [invoice Hinv].
  rewrite Hinv. right. exists (uuid (S (length items))), invoice.
  split; [|done]. by eapply asInvoice_wellFormed.
Qed.

(** ** Sound ledgers *)

Lemma sound_same a b :
  invoices a = invoices b -> profiles a = profiles b -> sound b -> sound a.
Proof. unfold sound, storedIds. by intros -> ->. Qed.

Lemma invoicesOf_markedPaid k now (ids : list string) (l : list Invoice.t) :
  invoicesOf k ((fun inv => if bool_decide (Invoice.id inv ∈ ids)
                            then markedPaid now inv else inv) <$> l)
  = invoicesOf k l.
Proof.
  unfold invoicesOf, sumOf. induction l as [|x l IH]; csimpl; [done|].
  rewrite IH. by case_bool_decide.
Qed.

Lemma bulkMarkPaid_sound now ids st : sound st -> sound (handleBulkMarkPaid now ids st).
Proof.
  intros (Hids & Hkeys & Huse & Hwf & Hunder & Hlinked). split_and!.
  - by rewrite storedIds_handleBulkMarkPaid.
  - done.
  - done.
  - cbn. apply Forall_fmap. eapply Forall_impl; [exact Hwf|].
    intros inv Hinv. cbn. by case_bool_decide.
  - intros k. unfold handleBulkMarkPaid. cbn [invoices profiles].
    rewrite invoicesOf_markedPaid. apply Hunder.
  - cbn. apply Forall_fmap. eapply Forall_impl; [exact Hlinked|].
    intros inv Hinv. cbn. by case_bool_decide.
Qed.

Lemma bulkDelete_sound confirmed ids st :
  sound st -> sound (handleBulkDelete confirmed ids st).
Proof.
  intros (Hids & Hkeys & Huse & Hwf & Hunder & Hlinked).
  destruct confirmed; [|done]. split_and!; cbn.
  - by apply storedIds_filter.
  - done.
  - done.
  - apply Forall_forall. rewrite Forall_forall in Hwf.
    intros inv [_ Hin]%list_elem_of_filter. auto.
  - intros k. etrans; [|apply Hunder]. unfold invoicesOf.
    apply sumOf_sublist; [|apply sublist_filter].
    intros x. destruct (decide (vendorKey x = k)); lia.
  - apply Forall_forall. rewrite Forall_forall in Hlinked.
    intros inv [_ Hin]%list_elem_of_filter. auto.
Qed.

Lemma step_sound st st' : sound st -> step st st' -> sound st'.
Proof.
  intros Hst Hstep.
  destruct Hstep as [st Hv|st Hv|uuid now cur r st Hv Hfresh|cur st Hv|invoice st Hv Hin
                    |today due uuid0 events uuid uuid' now invoice st Hv Hsave Hfresh
                    |st Hv|confirmed ids st Hv|now ids st Hv|st];
    try (by apply (sound_same _ st)).
  - destruct (handleCapture_ledger uuid now cur r st)
      as [[Hi Hp]|(fresh & invoice & Hwf & Hi & Hp)].
    + by apply (sound_same _ st).
    + apply (sound_same _ (handleSaveInvoice fresh now invoice st)); [done..|].
      by apply save_sound.
  - apply save_sound; [done|]. by eapply Form_handleSave_wellFormed.
  - by apply bulkDelete_sound.
  - by apply bulkMarkPaid_sound.
Qed.

Lemma reachable_sound st : reachable st -> sound st.
Proof.
  revert st. apply rtc_ind_r.
  - split_and!; try constructor. intros k. done.
  - intros st st' _ Hstep IH. by apply (step_sound st).
Qed.

(** ** Exact counts *)

Lemma save_exactCounts fresh now invoice st :
  sound st -> wellFormed invoice -> exactCounts st ->
  exactCounts (handleSaveInvoice fresh now invoice st).
Proof.
  intros (Hids & Hkeys & Huse & Hwf & _ & _) Hinv Hexact k.
  unfold exactCounts in Hexact.
  pose proof (wellFormed_total _ Hinv) as Ht.
  destruct (presweep_facts fresh invoice st Hkeys Huse Ht) as (_ & Hnn2 & _).
  rewrite invoicesOf_handleSaveInvoice by done.
  rewrite profiles_handleSaveInvoice, reconcile_eq. cbn [fst].
  unfold sweep. unfold countedFor at 1. rewrite sumOf_filter_eq.
  - fold (countedFor k (applyNew fresh invoice
            (undoPrevious (findInvoice (Invoice.id invoice) (invoices st))
               (profiles st))).1).
    rewrite countedFor_applyNew.
    destruct (findInvoice _ _) as [x|] eqn:E.
    + rewrite countedFor_undoPrevious_eq; [rewrite Hexact; lia|done|].
      destruct (list_find _ (profiles st)) eqn:Efind; [done|].
      apply countedFor_noMatch in Efind.
      apply findInvoice_Some in E as [Hx _].
      pose proof (invoicesOf_pos (vendorKey x) _ x Hx eq_refl).
      unfold vendorKey in *. rewrite <- Hexact in H. lia.
    + unfold undoPrevious, leaving. rewrite Hexact. lia.
  - intros p Hp Hnot. destruct (decide (profileKey p = k)); [|done].
    rewrite Forall_forall in Hnn2. destruct (Hnn2 p Hp) as [Hc _].
    destruct (decide (0 < CustomerProfile.invoiceCount p)); [|lia].
    destruct Hnot. by left.
Qed.

Lemma findInvoice_other fresh now invoice st i :
  i <> Invoice.id invoice ->
  findInvoice i (invoices (handleSaveInvoice fresh now invoice st))
  = findInvoice i (invoices st).
Proof.
  intros Hi. rewrite invoices_handleSaveInvoice. cbn zeta.
  destruct (findInvoice (Invoice.id invoice) (invoices st)) as [previous|].
  - unfold findInvoice. rewrite list_find_fmap.
    rewrite (list_find_ext _ (fun inv => Invoice.id inv = i)).
    + destruct (list_find _ (invoices st)) as [[j x]|] eqn:E; [|done].
      apply list_find_Some in E as (_ & Hx & _). cbn.
      rewrite bool_decide_eq_false_2; [done|congruence].
    + intros x. cbn. case_bool_decide; [|done]. cbn. split; congruence.
  - unfold findInvoice. cbn [list_find]. rewrite decide_False by (cbn; congruence).
    by destruct (list_find _ (invoices st)) as [[j x]|].
Qed.

(** ** Trimming *)

Lemma trimEnd_idem s : trimEnd (trimEnd s) = trimEnd s.
Proof.
  induction s as [|c r IH]; [done|]. cbn.
  destruct (trimEnd r) as [|c' r'] eqn:E.
  - destruct (isSpace c) eqn:Hc; [done|]. cbn. by rewrite Hc.
  - change (trimEnd (String c (String c' r')))
      with (match trimEnd (String c' r') with
            | EmptyString => if isSpace c then EmptyString else String c EmptyString
            | r'' => String c r''
            end).
    by rewrite IH.
Qed.

Lemma trimStart_cases s :
  trimStart s = "" \/ exists c r, trimStart s = String c r /\ isSpace c = false.
Proof.
  induction s as [|c r IH]; cbn; [by left|].
  destruct (isSpace c) eqn:Hc; [done|]. right. eauto.
Qed.

Lemma trim_idem s : trim (trim s) = trim s.
Proof.
  unfold trim. destruct (trimStart_cases s) as [->|(c & r & -> & Hc)]; [done|].
  assert (exists r', trimEnd (String c r) = String c r') as [r' Hr'].
  { cbn. destruct (trimEnd r); rewrite ?Hc; eauto. }
  rewrite Hr'. cbn [trimStart]. rewrite Hc. rewrite <- Hr'. apply trimEnd_idem.
Qed.

(** ** Pages *)

Lemma pages_cover {A} n (l : list A) :
  (length l <= itemsPerPage * n)%nat ->
  mjoin ((fun p => paginated p l) <$> seq 1 n) = l.
Proof.
  unfold paginated, itemsPerPage. revert l.
  induction n as [|n IH]; intros l Hl.
  - destruct l; [done|]. cbn in Hl. lia.
  - cbn [seq fmap list_fmap mjoin list_join]. cbn [Nat.sub Nat.mul drop].
    rewrite <- fmap_S_seq, <- list_fmap_compose.
    transitivity (take 5 l ++ drop 5 l)%list; [|apply take_drop]. f_equal.
    etrans; [|apply (IH (drop 5 l)); rewrite length_drop; lia].
    f_equal. apply list_fmap_ext. intros i p [-> _]%lookup_seq. cbn.
    rewrite drop_drop. do 2 f_equal. lia.
Qed.

Lemma totalPages_enough n : (n <= itemsPerPage * totalPages n)%nat.
Proof.
  unfold totalPages, itemsPerPage. cbn [Nat.sub].
  pose proof (Nat.div_mod_eq (n + 4) 5).
  pose proof (Nat.mod_upper_bound (n + 4) 5). lia.
Qed.

Lemma totalPages_lt n p :
  (1 <= p)%nat -> (totalPages n < p <-> n <= (p - 1) * itemsPerPage)%nat.
Proof.
  intros Hp. unfold totalPages, itemsPerPage. cbn [Nat.sub].
  pose proof (Nat.div_mod_eq (n + 4) 5).
  pose proof (Nat.mod_upper_bound (n + 4) 5). lia.
Qed.

(** ** Bulk operations, together *)

Lemma filter_markedPaid now (ids dels : list string) (l : list Invoice.t) :
  filter (fun inv => Invoice.id inv ∉ dels)
    ((fun inv => if bool_decide (Invoice.id inv ∈ ids) then markedPaid now inv else inv) <$> l)
  = (fun inv => if bool_decide (Invoice.id inv ∈ ids) then markedPaid now inv else inv)
      <$> filter (fun inv => Invoice.id inv ∉ dels) l.
Proof.
  induction l as [|x l IH]; [done|]. csimpl.
  set (f := fun inv => if bool_decide (Invoice.id inv ∈ ids) then markedPaid now inv else inv) in *.
  assert (Hid : Invoice.id (f x) = Invoice.id x) by (subst f; cbn; by case_bool_decide).
  destruct (decide (Invoice.id x ∈ dels)) as [Hin|Hout].
  - rewrite (filter_cons_False _ (f x)) by (rewrite Hid; auto).
    rewrite (filter_cons_False _ x) by auto. exact IH.
  - rewrite (filter_cons_True _ (f x)) by (by rewrite Hid).
    rewrite (filter_cons_True _ x) by done. csimpl. by rewrite IH.
Qed.

(** ** The form *)

Lemma Form_handle_tags f e : NoDup (Form.tags f) -> NoDup (Form.tags (Form.handle f e)).
Proof.
  intros Hf. destruct e; cbn; try done.
  - repeat case_bool_decide; try done. cbn.
    apply NoDup_app. split_and!; [done| |apply NoDup_singleton].
    intros t Ht [->|[]%not_elem_of_nil]%elem_of_cons. done.
  - by apply NoDup_filter.
  - by case_bool_decide.
Qed.

Lemma filter_one_id (l : list InvoiceItem.t) id :
  NoDup (InvoiceItem.id <$> l) ->
  (length l <= S (length (filter (fun item => InvoiceItem.id item <> id) l)))%nat.
Proof.
  induction l as [|x l IH]; intros Hl; [cbn; lia|].
  cbn in Hl. apply NoDup_cons in Hl as [Hx Hl].
  destruct (decide (InvoiceItem.id x = id)) as [Hid|Hid].
  - rewrite (filter_cons_False _ x l) by auto.
    rewrite filter_all; [cbn; lia|].
    apply Forall_forall. intros y Hy Hyid. apply Hx.
    rewrite Hid, <- Hyid. by apply list_elem_of_fmap_2.
  - rewrite (filter_cons_True _ x l) by done. cbn. specialize (IH Hl). lia.
Qed.

Lemma wellFormed_validateInvoice inv :
  wellFormed inv -> Invoice.items inv <> [] ->
  validateInvoice (Draft.ofInvoice inv) = true.
Proof.
  intros (_ & Hv & Hd & Hdd & Hits & _) Hne.
  apply not_false_iff_true. intros Hfalse%validateInvoice_false. cbn in Hfalse.
  destruct Hfalse as [?|[Hf|[Hf|[?|[[= ?]|(items & it & [= <-] & Hin & Hbad)]]]]];
    try congruence.
  - by apply bool_decide_eq_true in Hf.
  - by apply bool_decide_eq_true in Hf.
  - rewrite Forall_forall in Hits. destruct (Hits it Hin) as (H1 & H2 & H3).
    destruct Hbad as [?|[?|?]]; [done|lra|lra].
Qed.

(** ** The ledger in every reachable state *)

(** X1. In every reachable state the stored invoices have pairwise
    different ids: a save replaces the invoice of the same id or adds a
    new one, and no other operation changes an id. *)
Theorem reachable_ids_distinct st :
  reachable st -> NoDup (Invoice.id <$> invoices st).
Proof. intros Hst. apply (reachable_sound st Hst). Qed.

(** X2. Every invoice stored in a reachable state went through one of
    the two validators: it is an expense, its vendor name is not blank,
    its two dates are not empty, each of its items has a description, a
    positive quantity and a rate that is not negative, and its total is
    not negative. *)
Theorem reachable_invoices_wellFormed st :
  reachable st ->
  Forall (fun inv =>
            Invoice.type inv = expense /\
            blank (Invoice.vendorName inv) = false /\
            Invoice.date inv <> "" /\
            Invoice.dueDate inv <> "" /\
            Forall (fun it => InvoiceItem.description it <> "" /\
                              (0 < InvoiceItem.quantity it)%Q /\
                              (0 <= InvoiceItem.rate it)%Q) (Invoice.items inv) /\
            (0 <= Invoice.total inv)%Q)
         (invoices st).
Proof.
  intros Hst. destruct (reachable_sound st Hst) as (_ & _ & _ & Hwf & _).
  eapply Forall_impl; [exact Hwf|]. intros inv Hinv.
  pose proof (wellFormed_total inv Hinv).
  destruct Hinv as (? & ? & ? & ? & ? & _). by split_and!.
Qed.

(** X3. No profile of a reachable state is empty: each counts at least
    one invoice and a spend that is not negative, so the exception made
    by the sweep for the vendor just saved never keeps a profile at 0. *)
Theorem reachable_profiles_inUse st :
  reachable st ->
  Forall (fun p => 1 <= CustomerProfile.invoiceCount p /\
                   (0 <= CustomerProfile.totalSpent p)%Q) (profiles st).
Proof. intros Hst. apply (reachable_sound st Hst). Qed.

(** X4. In every reachable state there is at most one profile per
    vendor name, names being compared without the case of the letters. *)
Theorem reachable_profile_names_distinct st :
  reachable st ->
  NoDup ((fun p => toLowerCase (CustomerProfile.name p)) <$> profiles st).
Proof. intros Hst. apply (reachable_sound st Hst). Qed.

(** ** What the handlers keep of a sound ledger *)

Lemma sound_covered st : sound st -> covered st.
Proof.
  intros (_ & Hkeys & _ & _ & Hunder & _). apply Forall_forall. intros p Hp.
  rewrite <- (countedFor_unique _ (profiles st) p Hkeys Hp eq_refl). apply Hunder.
Qed.

Lemma withProfiles_same st : withProfiles (profiles st) st = st.
Proof. by destruct st. Qed.

Lemma invoicesOf_split (P : Invoice.t -> Prop) `{!forall x, Decision (P x)} k l :
  invoicesOf k l = invoicesOf k (filter (fun x => ~ P x) l) + invoicesOf k (filter P l).
Proof.
  unfold invoicesOf, sumOf. induction l as [|x l IH]; [done|].
  destruct (decide (P x)) as [Hx|Hx].
  - rewrite (filter_cons_True P x l) by done.
    rewrite (filter_cons_False (fun x => ~ P x) x l) by auto.
    csimpl. lia.
  - rewrite (filter_cons_False P x l) by done.
    rewrite (filter_cons_True (fun x => ~ P x) x l) by done.
    csimpl. lia.
Qed.

(** X5. A handler that runs on a sound ledger never makes a profile
    count fewer invoices than are stored under its vendor name, as long
    as the save works on the profiles that are stored ([rendered] is
    [profiles st]): a save moves the count with the invoice, marking
    paid changes neither, and deleting leaves the counts as they were,
    too high at worst. *)
Theorem handlers_never_undercount rendered fresh now invoice confirmed (ids : list string) st :
  sound st ->
  wellFormed invoice ->
  rendered = profiles st ->
  covered (handleSaveInvoiceOn rendered fresh now invoice st) /\
  covered (handleBulkDelete confirmed ids st) /\
  covered (handleBulkMarkPaid now ids st).
Proof.
  intros Hst Hinv ->. unfold handleSaveInvoiceOn. rewrite withProfiles_same.
  split_and!; apply sound_covered.
  - by apply save_sound.
  - by apply bulkDelete_sound.
  - by apply bulkMarkPaid_sound.
Qed.

(** X6. Under the same conditions every stored invoice points to a
    stored profile after the handler: its [profileId] is the id of a
    profile of the collection, and that profile bears the vendor name
    of the invoice up to the case of the letters. *)
Theorem handlers_keep_links rendered fresh now invoice confirmed (ids : list string) st :
  sound st ->
  wellFormed invoice ->
  rendered = profiles st ->
  let linkedIn st' :=
    Forall (fun inv =>
              exists p, p ∈ profiles st' /\
                        toLowerCase (CustomerProfile.name p)
                        = toLowerCase (Invoice.vendorName inv) /\
                        Invoice.profileId inv = Some (CustomerProfile.id p))
           (invoices st') in
  linkedIn (handleSaveInvoiceOn rendered fresh now invoice st) /\
  linkedIn (handleBulkDelete confirmed ids st) /\
  linkedIn (handleBulkMarkPaid now ids st).
Proof.
  intros Hst Hinv -> linkedIn. unfold handleSaveInvoiceOn. rewrite withProfiles_same.
  split_and!.
  - apply (save_sound fresh now invoice st Hst Hinv).
  - apply (bulkDelete_sound confirmed ids st Hst).
  - apply (bulkMarkPaid_sound now ids st Hst).
Qed.

(** X7. When the profiles of a sound ledger count exactly the stored
    invoices of each vendor, they still do after a save that works on
    the stored profiles and after marking paid; after a confirmed
    delete each vendor is counted too high by exactly the number of its
    invoices that were deleted. *)
Theorem handlers_exact_counts rendered fresh now invoice (ids : list string) st :
  sound st ->
  exactCounts st ->
  wellFormed invoice ->
  rendered = profiles st ->
  (forall k, countedFor k (profiles (handleSaveInvoiceOn rendered fresh now invoice st))
             = invoicesOf k (invoices (handleSaveInvoiceOn rendered fresh now invoice st))) /\
  (forall k, countedFor k (profiles (handleBulkMarkPaid now ids st))
             = invoicesOf k (invoices (handleBulkMarkPaid now ids st))) /\
  (forall k, countedFor k (profiles (handleBulkDelete true ids st))
             = invoicesOf k (invoices (handleBulkDelete true ids st))
               + invoicesOf k (filter (fun inv => Invoice.id inv ∈ ids) (invoices st))).
Proof.
  intros Hst Hexact Hinv ->. unfold handleSaveInvoiceOn. rewrite withProfiles_same.
  split_and!.
  - by apply save_exactCounts.
  - intros k. unfold handleBulkMarkPaid. cbn [invoices profiles].
    rewrite invoicesOf_markedPaid. apply Hexact.
  - intros k. unfold handleBulkDelete. cbn [invoices profiles].
    rewrite Hexact. apply (invoicesOf_split (fun inv => Invoice.id inv ∈ ids)).
Qed.

(** The condition on [rendered] is needed. In [Overlap.both] the second
    capture saved on the profiles of the render in which it was
    started: the ledger it ran on was sound and exact and its invoice
    well formed, yet two invoices of the vendor are stored, the only
    profile counts one, and the first invoice points to a profile that
    is gone. *)
Example stale_profiles_lose_a_count :
  exactCounts Overlap.first /\
  Invoice.vendorName <$> invoices Overlap.both = ["Cafe"; "Cafe"] /\
  profiles Overlap.both = [CustomerProfile.mk "8" "Cafe" 4 1 "2024-01-06"] /\
  Invoice.profileId <$> invoices Overlap.both = [Some "8"; Some "2"] /\
  ~ covered Overlap.both.
Proof.
  split_and!; try reflexivity.
  - intros k. cbn. by destruct (decide ("cafe" = k)).
  - intros H. apply Forall_cons in H as [H _]. by vm_compute in H.
Qed.

(** X18. In a reachable state every stored invoice is an expense, so
    the balance sheet adds up all the stored totals; the sum is not
    negative and the net balance is not positive. *)
Theorem reachable_balance st :
  reachable st ->
  totalExpenses (balanceSheet st)
  = fold_left (fun sum inv => (sum + Invoice.total inv)%Q) (invoices st) 0%Q /\
  (0 <= totalExpenses (balanceSheet st))%Q /\
  (netBalance (balanceSheet st) <= 0)%Q.
Proof.
  intros Hst. destruct (reachable_sound st Hst) as (_ & _ & _ & Hwf & _).
  assert (Hall : filter (fun inv => Invoice.type inv = expense) (invoices st) = invoices st).
  { apply filter_all. eapply Forall_impl; [exact Hwf|]. by intros inv (? & _). }
  assert (Hpos : forall l a, Forall wellFormed l -> (0 <= a)%Q ->
            (0 <= fold_left (fun sum inv => sum + Invoice.total inv) l a)%Q).
  { induction l as [|x l IH]; intros a Hl Ha; [done|]. cbn.
    apply Forall_cons in Hl as [Hx Hl]. apply IH; [done|].
    pose proof (wellFormed_total x Hx). lra. }
  unfold balanceSheet. cbn. rewrite Hall. specialize (Hpos _ 0%Q Hwf).
  split_and!; [done|by apply Hpos|].
  assert (0 <= fold_left (fun sum inv => sum + Invoice.total inv) (invoices st) 0)%Q
    by (by apply Hpos).
  lra.
Qed.

(** ** Lookups, bulk operations, form, pages *)

(** X8. After a save, the invoice found under the saved id is the
    record of that save, with the fields of the input; the invoice
    found under any other id is the one found before. *)
Theorem save_then_find fresh now invoice st :
  let st' := handleSaveInvoice fresh now invoice st in
  (exists stored,
     findInvoice (Invoice.id invoice) (invoices st') = Some stored /\
     sameButProfileAndTime invoice stored /\
     Invoice.updatedAt stored = now) /\
  (forall i, i <> Invoice.id invoice ->
     findInvoice i (invoices st') = findInvoice i (invoices st)) /\
  length (invoices st')
  = (length (invoices st)
     + match findInvoice (Invoice.id invoice) (invoices st) with
       | Some _ => 0
       | None => 1
       end)%nat.
Proof.
  cbn zeta. split_and!.
  - exists (withProfile invoice (reconcile fresh invoice st).2 now).
    split; [apply findInvoice_saved|]. by repeat split.
  - intros i Hi. by apply findInvoice_other.
  - rewrite invoices_handleSaveInvoice. cbn zeta.
    destruct (findInvoice _ _); [rewrite length_fmap|cbn]; lia.
Qed.

(** X9. Deleting a first list of ids and then a second one leaves the
    invoices that deleting both lists at once leaves, and after a
    confirmed delete no stored invoice has one of the deleted ids. *)
Theorem bulkDelete_twice (ids1 ids2 : list string) st :
  invoices (handleBulkDelete true ids2 (handleBulkDelete true ids1 st))
  = invoices (handleBulkDelete true (ids1 ++ ids2) st) /\
  Forall (fun inv => Invoice.id inv ∉ ids1) (invoices (handleBulkDelete true ids1 st)).
Proof.
  cbn. split.
  - rewrite list_filter_filter. apply list_filter_iff.
    intros inv. rewrite elem_of_app. tauto.
  - apply Forall_forall. by intros inv [Hid _]%list_elem_of_filter.
Qed.

(** X10. Marking invoices as paid and deleting invoices can be done in
    either order: the invoices and the profiles left are the same. *)
Theorem bulkDelete_markPaid_commute now (ids dels : list string) st :
  invoices (handleBulkDelete true dels (handleBulkMarkPaid now ids st))
  = invoices (handleBulkMarkPaid now ids (handleBulkDelete true dels st)) /\
  profiles (handleBulkDelete true dels (handleBulkMarkPaid now ids st))
  = profiles (handleBulkMarkPaid now ids (handleBulkDelete true dels st)).
Proof. split; [apply filter_markedPaid|done]. Qed.

(** X11. Whatever the user does in the form, the tags stay pairwise
    different when they were so at the start: a tag that is already
    there is not added again. *)
Theorem form_tags_distinct f events :
  NoDup (Form.tags f) -> NoDup (Form.tags (foldl Form.handle f events)).
Proof.
  revert f. induction events as [|e events IH]; intros f Hf; cbn; [done|].
  by apply IH, Form_handle_tags.
Qed.

(** X12. With lines of pairwise different ids, no event of the form
    removes the last line. *)
Theorem form_keeps_a_line f e :
  NoDup (InvoiceItem.id <$> Form.items f) ->
  Form.items f <> [] ->
  Form.items (Form.handle f e) <> [].
Proof.
  intros Hids Hne. destruct e; cbn; try done.
  - repeat case_bool_decide; done.
  - destruct (Form.items f); [done|]. by destruct l.
  - destruct (Form.items f); [done|]. done.
  - case_bool_decide as Hlen; [|done]. cbn.
    pose proof (filter_one_id (Form.items f) id Hids) as Hfilter.
    intros Hnil. rewrite Hnil in Hfilter. cbn in Hfilter. lia.
Qed.

(** X13. The validator of the form is at least as strict as the one of
    the auto-save, lines apart: an invoice that the form saves with at
    least one line passes [validateInvoice]. *)
Theorem form_save_passes_gate uuid now f invoice :
  Form.handleSave uuid now f = Some invoice ->
  Form.items f <> [] ->
  validateInvoice (Draft.ofInvoice invoice) = true.
Proof.
  intros Hsave Hne. apply wellFormed_validateInvoice.
  - by eapply Form_handleSave_wellFormed.
  - unfold Form.handleSave in Hsave. destruct (Form.validate f); [|done].
    by injection Hsave as <-.
Qed.

(** X14. The vendor name that the form saves is trimmed and is not
    empty: trimming it again changes nothing. *)
Theorem form_save_trims_vendor uuid now f invoice :
  Form.handleSave uuid now f = Some invoice ->
  trim (Invoice.vendorName invoice) = Invoice.vendorName invoice /\
  Invoice.vendorName invoice <> "".
Proof.
  unfold Form.handleSave. destruct (Form.validate f) eqn:E; [|done].
  apply Form_validate_true in E as (Hv & _). intros [= <-]. cbn.
  split; [apply trim_idem|done].
Qed.

(** X15. Opening a stored invoice in the form and saving it without
    touching anything: when no description of the invoice is blank the
    form saves, under the same id and with the same dates, items, tags,
    status and total, the vendor name coming back trimmed; when a
    description is blank (the auto-save lets such an invoice in) the
    form refuses to save. *)
Theorem edit_save_unchanged today inThirtyDays uuid0 uuid now inv :
  wellFormed inv ->
  Invoice.id inv <> "" ->
  let f := Form.init today inThirtyDays uuid0 (Some (Draft.ofInvoice inv)) in
  (Forall (fun it => blank (InvoiceItem.description it) = false) (Invoice.items inv) ->
   exists inv',
     Form.handleSave uuid now f = Some inv' /\
     Invoice.id inv' = Invoice.id inv /\
     Invoice.vendorName inv' = trim (Invoice.vendorName inv) /\
     Invoice.date inv' = Invoice.date inv /\
     Invoice.dueDate inv' = Invoice.dueDate inv /\
     Invoice.items inv' = Invoice.items inv /\
     Invoice.tags inv' = Invoice.tags inv /\
     Invoice.status inv' = Invoice.status inv /\
     Invoice.type inv' = Invoice.type inv /\
     Invoice.total inv' = Invoice.total inv) /\
  (Exists (fun it => blank (InvoiceItem.description it) = true) (Invoice.items inv) ->
   Form.handleSave uuid now f = None).
Proof.
  intros (Htype & Hv & Hd & Hdd & Hitems & Htotal) Hid f.
  assert (Hvne : Invoice.vendorName inv <> "") by (by intros Hempty; rewrite Hempty in Hv).
  assert (Hvt : trim (Invoice.vendorName inv) <> "").
  { rewrite trim_empty. by rewrite Hv. }
  assert (Hf : Form.items f = Invoice.items inv /\
               Form.vendorName f = Invoice.vendorName inv /\
               Form.date f = Invoice.date inv /\
               Form.dueDate f = Invoice.dueDate inv).
  { subst f. cbn. by rewrite !bool_decide_eq_false_2 by done. }
  destruct Hf as (Hfi & Hfv & Hfd & Hfdd).
  split.
  - intros Hdesc.
    assert (Hval : Form.validate f = true).
    { unfold Form.validate, Form.errors. apply bool_decide_eq_true.
      rewrite Hfv, Hfd, Hfdd, Hfi. rewrite !bool_decide_eq_false_2 by done.
      assert (existsb Form.itemInvalid (Invoice.items inv) = false) as ->; [|done].
      apply not_true_iff_false. intros (it & Hin & Hbad)%existsb_exists.
      apply list_elem_of_In in Hin.
      rewrite Forall_forall in Hitems, Hdesc.
      destruct (Hitems it Hin) as (_ & Hq & Hr). specialize (Hdesc it Hin).
      unfold Form.itemInvalid in Hbad. rewrite !orb_true_iff in Hbad.
      destruct Hbad as [[Hb|Hb]|Hb].
      - apply bool_decide_eq_true in Hb. apply trim_empty in Hb. congruence.
      - apply Qle_bool_iff in Hb. lra.
      - apply Qltb_lt in Hb. lra. }
    unfold Form.handleSave. rewrite Hval. eexists. split; [done|].
    subst f. cbn. rewrite !bool_decide_eq_false_2 by done. by split_and!.
  - intros (it & Hin & Hb)%Exists_exists.
    unfold Form.handleSave.
    assert (Form.validate f = false) as ->; [|done].
    unfold Form.validate, Form.errors. apply bool_decide_eq_false.
    rewrite Hfi.
    assert (existsb Form.itemInvalid (Invoice.items inv) = true) as ->.
    { apply existsb_exists. exists it. split; [by apply list_elem_of_In|].
      unfold Form.itemInvalid. apply trim_empty in Hb. rewrite Hb. done. }
    intros Herr. apply (f_equal length) in Herr. rewrite !length_app in Herr.
    cbn in Herr. lia.
Qed.

(** X16. The pages of the table, put end to end from the first to the
    last, are the list that is paged: no row is lost or shown twice. *)
Theorem pages_partition {A} (l : list A) :
  mjoin ((fun p => paginated p l) <$> seq 1 (totalPages (length l))) = l.
Proof. apply pages_cover, totalPages_enough. Qed.

(** X17. A page holds at most five rows, and it is empty exactly when
    its number is beyond the last page: a page number kept while rows
    are deleted can show nothing although rows remain. *)
Theorem page_bounds {A} (p : nat) (l : list A) :
  (1 <= p)%nat ->
  (length (paginated p l) <= itemsPerPage)%nat /\
  (paginated p l = [] <-> (totalPages (length l) < p)%nat).
Proof.
  intros Hp. unfold paginated. cbn zeta. split.
  - rewrite length_take. lia.
  - rewrite (totalPages_lt _ _ Hp). split.
    + intros Hnil. apply (f_equal length) in Hnil.
      rewrite length_take, length_drop in Hnil. cbn [length] in Hnil.
      unfold itemsPerPage in *. lia.
    + intros Hlen. by rewrite drop_ge.
Qed.

(** X19. A capture adds at most one invoice: either the collections are
    left as they are and the form is opened, or one new invoice, UNPAID,
    under one of the drawn UUIDs, is put at the head of the collection
    and the dashboard is shown again. *)
Theorem capture_adds_at_most_one uuid now preferredCurrency r st :
  (forall k, uuid k ∉ Invoice.id <$> invoices st) ->
  let st' := handleCapture uuid now preferredCurrency r st in
  (invoices st' = invoices st /\ profiles st' = profiles st /\ view st' = EDITING) \/
  (exists k inv,
     invoices st' = inv :: invoices st /\
     Invoice.id inv = uuid k /\
     Invoice.status inv = UNPAID /\
     view st' = DASHBOARD /\ scannedData st' = None).
Proof.
  intros Hfresh. unfold handleCapture.
  destruct (extractInvoiceData r) as [message|data]; [by left|].
  destruct (Payload.items data) as [items|]; [|by left].
  cbn zeta.
  destruct (validateInvoice _) eqn:Hvalid; [|by left].
  destruct (asInvoice_valid (uuid (length items)) _ _ _ _ _ Hvalid) as [invoice Hinv].
  rewrite Hinv. apply asInvoice_template in Hinv as (Hid & Hstatus & _).
  right. exists (length items).
  eexists. cbn. rewrite invoices_handleSaveInvoice. cbn zeta.
  destruct (findInvoice (Invoice.id invoice) (invoices st)) as [x|] eqn:E.
  { apply findInvoice_Some in E as [Hx Hxid]. destruct (Hfresh (length items)).
    rewrite <- Hid, <- Hxid. by apply list_elem_of_fmap_2. }
  split_and!; [done|done|done|done|]. apply view_handleSaveInvoice.
Qed.

(** ** The session, checked against the properties above *)

Lemma Session_paidInvoice_wellFormed : wellFormed Session.paidInvoice.
Proof.
  split_and!; try done.
  repeat constructor; cbn; try done; lra.
Defined.

(** The ids stored while the form of the session is open. *)
Lemma reachable_ids_distinct_witness :
  reachable Session.editing /\ NoDup (Invoice.id <$> invoices Session.editing).
Proof.
  split; [apply Session_editing_reachable|].
  exact (reachable_ids_distinct Session.editing Session_editing_reachable).
Defined.

(** The invoice stored by the capture of the session. *)
Lemma reachable_invoices_wellFormed_witness :
  reachable Session.captured /\
  Forall (fun inv => Invoice.type inv = expense /\ (0 <= Invoice.total inv)%Q)
         (invoices Session.captured).
Proof.
  split; [apply Session_captured_reachable|].
  eapply Forall_impl;
    [exact (reachable_invoices_wellFormed Session.captured Session_captured_reachable)|].
  intros inv (H1 & _ & _ & _ & _ & H2). by split.
Defined.

(** The profile made by the capture of the session. *)
Lemma reachable_profiles_inUse_witness :
  reachable Session.captured /\
  Forall (fun p => 1 <= CustomerProfile.invoiceCount p /\
                   (0 <= CustomerProfile.totalSpent p)%Q) (profiles Session.captured).
Proof.
  split; [apply Session_captured_reachable|].
  exact (reachable_profiles_inUse Session.captured Session_captured_reachable).
Defined.

Lemma reachable_profile_names_distinct_witness :
  reachable Session.editing /\
  NoDup ((fun p => toLowerCase (CustomerProfile.name p)) <$> profiles Session.editing).
Proof.
  split; [apply Session_editing_reachable|].
  exact (reachable_profile_names_distinct Session.editing Session_editing_reachable).
Defined.

Lemma Overlap_second_wellFormed : wellFormed Overlap.second.
Proof.
  split_and!; try done.
  repeat constructor; cbn; try done; lra.
Qed.

Lemma Session_captured_exactCounts : exactCounts Session.captured.
Proof. intros k. cbn. by destruct (decide ("cafe" = k)). Qed.

(** A second invoice of the vendor, saved on the ledger left by the
    capture of the session and on its profiles. *)
Lemma handlers_never_undercount_witness :
  sound Session.captured /\
  wellFormed Overlap.second /\
  covered (handleSaveInvoiceOn (profiles Session.captured) "8" "t2" Overlap.second
             Session.captured).
Proof.
  pose proof (reachable_sound Session.captured Session_captured_reachable) as Hst.
  split_and!; [exact Hst|exact Overlap_second_wellFormed|].
  exact (proj1 (handlers_never_undercount (profiles Session.captured) "8" "t2"
                  Overlap.second true ["1"] Session.captured
                  Hst Overlap_second_wellFormed eq_refl)).
Defined.

Lemma handlers_keep_links_witness :
  sound Session.captured /\
  wellFormed Overlap.second /\
  Forall (fun inv =>
            exists p, p ∈ profiles (handleBulkMarkPaid "t2" ["1"] Session.captured) /\
                      toLowerCase (CustomerProfile.name p)
                      = toLowerCase (Invoice.vendorName inv) /\
                      Invoice.profileId inv = Some (CustomerProfile.id p))
         (invoices (handleBulkMarkPaid "t2" ["1"] Session.captured)).
Proof.
  pose proof (reachable_sound Session.captured Session_captured_reachable) as Hst.
  split_and!; [exact Hst|exact Overlap_second_wellFormed|].
  exact (proj2 (proj2 (handlers_keep_links (profiles Session.captured) "8" "t2"
                         Overlap.second true ["1"] Session.captured
                         Hst Overlap_second_wellFormed eq_refl))).
Defined.

Lemma handlers_exact_counts_witness :
  sound Session.captured /\
  exactCounts Session.captured /\
  wellFormed Overlap.second /\
  countedFor "cafe"
    (profiles (handleSaveInvoiceOn (profiles Session.captured) "8" "t2" Overlap.second
                 Session.captured))
  = invoicesOf "cafe"
      (invoices (handleSaveInvoiceOn (profiles Session.captured) "8" "t2" Overlap.second
                   Session.captured)).
Proof.
  pose proof (reachable_sound Session.captured Session_captured_reachable) as Hst.
  split_and!;
    [exact Hst|exact Session_captured_exactCounts|exact Overlap_second_wellFormed|].
  exact (proj1 (handlers_exact_counts (profiles Session.captured) "8" "t2"
                  Overlap.second ["1"] Session.captured
                  Hst Session_captured_exactCounts Overlap_second_wellFormed eq_refl)
           "cafe").
Defined.

Lemma reachable_balance_witness :
  reachable Session.editing /\
  (0 <= totalExpenses (balanceSheet Session.editing))%Q.
Proof.
  split; [apply Session_editing_reachable|].
  exact (proj1 (proj2 (reachable_balance Session.editing Session_editing_reachable))).
Defined.

(** The tags of the form of the session after two more tags. *)
Lemma form_tags_distinct_witness :
  NoDup (Form.tags Desk.form) /\
  NoDup (Form.tags (foldl Form.handle Desk.form
                      [Form.AddTag "coffee"; Form.AddTag " tea "])).
Proof.
  assert (H : NoDup (Form.tags Desk.form)) by apply NoDup_singleton.
  split; [exact H|].
  exact (form_tags_distinct Desk.form [Form.AddTag "coffee"; Form.AddTag " tea "] H).
Defined.

(** The only line of the form of the session cannot be removed. *)
Lemma form_keeps_a_line_witness :
  NoDup (InvoiceItem.id <$> Form.items Desk.form) /\
  Form.items (Form.handle Desk.form (Form.RemoveItem "0")) <> [].
Proof.
  assert (H : NoDup (InvoiceItem.id <$> Form.items Desk.form)) by apply NoDup_singleton.
  split; [exact H|].
  apply (form_keeps_a_line Desk.form (Form.RemoveItem "0") H). discriminate.
Defined.

(** The invoice saved by the form of the session. *)
Lemma form_save_passes_gate_witness :
  Form.handleSave "u9" "t4" Desk.form = Some Session.edited /\
  validateInvoice (Draft.ofInvoice Session.edited) = true.
Proof.
  assert (H : Form.handleSave "u9" "t4" Desk.form = Some Session.edited) by reflexivity.
  split; [exact H|].
  apply (form_save_passes_gate "u9" "t4" Desk.form Session.edited H). discriminate.
Defined.

Lemma form_save_trims_vendor_witness :
  Form.handleSave "u9" "t4" Desk.form = Some Session.edited /\
  trim (Invoice.vendorName Session.edited) = Invoice.vendorName Session.edited.
Proof.
  assert (H : Form.handleSave "u9" "t4" Desk.form = Some Session.edited) by reflexivity.
  split; [exact H|].
  exact (proj1 (form_save_trims_vendor "u9" "t4" Desk.form Session.edited H)).
Defined.

(** The paid invoice of the session, opened and saved untouched. *)
Lemma edit_save_unchanged_witness :
  wellFormed Session.paidInvoice /\
  Form.handleSave "u9" "t4" Desk.untouched = Some Desk.resaved /\
  Invoice.status Desk.resaved = Invoice.status Session.paidInvoice.
Proof.
  assert (Hid : Invoice.id Session.paidInvoice <> "") by discriminate.
  assert (Hdesc : Forall (fun it => blank (InvoiceItem.description it) = false)
                    (Invoice.items Session.paidInvoice)) by (by repeat constructor).
  destruct (proj1 (edit_save_unchanged "2024-01-10" "2024-02-09" "u0" "u9" "t4"
                     Session.paidInvoice Session_paidInvoice_wellFormed Hid) Hdesc)
    as (inv' & Hsave & Hsame).
  assert (H : Form.handleSave "u9" "t4" Desk.untouched = Some Desk.resaved) by reflexivity.
  split_and!; [exact Session_paidInvoice_wellFormed|exact H|].
  unfold Desk.untouched in H. rewrite Hsave in H. injection H as <-.
  exact (proj1 (proj2 (proj2 (proj2 (proj2 (proj2 (proj2 Hsame))))))).
Defined.

(** Six rows: the second page holds one row, the third none. *)
Lemma page_bounds_witness :
  (length (paginated 2 Desk.rows) <= itemsPerPage)%nat /\
  (paginated 3 Desk.rows = [] <-> (totalPages (length Desk.rows) < 3)%nat).
Proof.
  split.
  - apply (page_bounds 2 Desk.rows). lia.
  - apply (page_bounds 3 Desk.rows). lia.
Defined.

(** The capture of the session adds its invoice at the head. *)
Lemma capture_adds_at_most_one_witness :
  (forall k : nat, pretty k ∉ Invoice.id <$> invoices Session.scanning) /\
  length (invoices Session.captured) = 1%nat.
Proof.
  assert (H : forall k : nat, pretty k ∉ Invoice.id <$> invoices Session.scanning)
    by (intros k; apply not_elem_of_nil).
  split; [exact H|].
  destruct (capture_adds_at_most_one pretty "t1" "INR" (Parsed Coffee.complete)
              Session.scanning H) as [(Hsame & _)|(k & inv & Hadd & _)].
  - discriminate Hsame.
  - unfold Session.captured. by rewrite Hadd.
Defined.

(** ** Paid, due soon, overdue *)

(** X21. Marking paid leaves the ids and their order as they are, leaves
    no invoice of the list of ids unpaid, keeps every other invoice as
    it is, and does not touch the profiles. *)
Theorem bulkMarkPaid_exact now (ids : list string) st :
  let st' := handleBulkMarkPaid now ids st in
  Invoice.id <$> invoices st' = Invoice.id <$> invoices st /\
  Forall (fun b => Invoice.id b ∈ ids ->
                   Invoice.status b = PAID /\ Invoice.updatedAt b = now) (invoices st') /\
  Forall (fun a => Invoice.id a ∉ ids -> a ∈ invoices st') (invoices st) /\
  profiles st' = profiles st.
Proof.
  cbn zeta. split_and!.
  - apply storedIds_handleBulkMarkPaid.
  - cbn. apply Forall_fmap, Forall_forall. intros a _. cbn.
    case_bool_decide; cbn; by intros.
  - apply Forall_forall. intros a Ha Hout. cbn.
    apply list_elem_of_fmap. exists a. split; [|done].
    by rewrite bool_decide_eq_false_2.
  - done.
Qed.

(** X22. An invoice that is due soon is not overdue: with the same
    day taken as today, [isDueSoon] and a derived status OVERDUE never
    hold together, whatever the stored status. *)
Theorem dueSoon_not_overdue today threeDaysFromNow due currentStatus :
  isDueSoon today threeDaysFromNow due = true ->
  getDerivedStatus today due currentStatus <> Derived.OVERDUE.
Proof.
  unfold isDueSoon, getDerivedStatus. destruct due as [d|]; [|done].
  intros [Hlo _]%andb_true_iff. apply Z.leb_le in Hlo.
  destruct currentStatus; [done|].
  destruct (Z.ltb_spec d today); [lia|done].
Qed.

(** X23. After marking paid, the invoices counted as overdue are the
    overdue invoices that were not in the list of ids: marking every
    stored invoice brings the count to 0. *)
Theorem markPaid_overdueCount parse today now (ids : list string) st :
  overdueCount parse today (invoices (handleBulkMarkPaid now ids st))
  = overdueCount parse today (filter (fun inv => Invoice.id inv ∉ ids) (invoices st)).
Proof.
  unfold overdueCount, handleBulkMarkPaid. cbn [invoices].
  induction (invoices st) as [|x l IH]; [done|]. csimpl.
  destruct (decide (Invoice.id x ∈ ids)) as [Hin|Hout].
  - rewrite bool_decide_eq_true_2 by done.
    rewrite (filter_cons_False _ (markedPaid now x)) by done.
    rewrite (filter_cons_False (fun inv => Invoice.id inv ∉ ids) x) by auto.
    exact IH.
  - rewrite bool_decide_eq_false_2 by done.
    rewrite (filter_cons_True (fun inv => Invoice.id inv ∉ ids) x) by done.
    destruct (decide (getDerivedStatus today (parse (Invoice.dueDate x))
                        (Invoice.status x) = Derived.OVERDUE)) as [Hover|Hnot].
    + rewrite !(filter_cons_True _ x) by done. cbn. by rewrite IH.
    + rewrite !(filter_cons_False _ x) by done. exact IH.
Qed.

(** A due date three days ahead is due soon, hence not overdue. *)
Lemma dueSoon_not_overdue_witness :
  isDueSoon 1000 5000 (Some 4000) = true /\
  getDerivedStatus 1000 (Some 4000) UNPAID <> Derived.OVERDUE.
Proof.
  assert (H : isDueSoon 1000 5000 (Some 4000) = true) by reflexivity.
  split; [exact H|].
  exact (dueSoon_not_overdue 1000 5000 (Some 4000) UNPAID H).
Defined.
